(** * AYLIEN Text API client (textapi.js): parameter normalisation and dispatch

    A shallow embedding of [AYLIENTextAPI] (textapi.js) together with the two
    helpers it requires, [util.extend] (lib/util.js) and [createAPIRequest]
    (lib/apirequest.js).

    JavaScript objects are mutable and passed by reference, and the client
    hands the caller's own mapping to [util.extend]; the embedding therefore
    keeps an explicit store of objects addressed by location and threads it
    through every function. *)

From Stdlib Require Import ZArith Ascii String List.
From stdpp Require Import base option list gmap strings pretty fin_maps.

Local Open Scope string_scope.
Local Open Scope list_scope.

(** ** JavaScript values and objects *)

Module Js.

(** The values that request parameters take. Arrays hold strings (the list
    of candidate classes of [unsupervisedClassify]). *)
Inductive value : Type :=
| VUndefined
| VNull
| VBool (b : bool)
| VNum (n : Z)
| VStr (s : string)
| VArr (items : list string).

(** ToBoolean, as used by [if (x)], [!x] and [&&]. *)
Definition truthy (v : value) : bool :=
  match v with
  | VUndefined | VNull => false
  | VBool b => b
  | VNum n => negb (Z.eqb n 0)
  | VStr s => negb (String.eqb s "")
  | VArr _ => true
  end.

(** An object is a finite map from property names to values. *)
Abbreviation obj := (gmap string value).

(** [o.k]: reading an absent property gives [undefined]. *)
Definition prop (o : obj) (k : string) : value := default VUndefined (o !! k).

(** References are locations in a store of objects; an object literal
    allocates the next free location. *)
Abbreviation loc := nat.
Abbreviation heap := (list obj).

(** Computations that read and update the store. *)
Definition M (A : Type) : Type := heap -> A * heap.

Definition ret {A} (a : A) : M A := fun h => (a, h).

Definition bind {A B} (m : M A) (k : A -> M B) : M B :=
  fun h => let (a, h1) := m h in k a h1.

(** [{ ... }]: an object literal. *)
Definition new_object (o : obj) : M loc :=
  fun h => (length h, h ++ [o]).

(** [x.k] *)
Definition get (x : loc) (k : string) : M value :=
  fun h => (prop (default ∅ (h !! x)) k, h).

(** [x.k = v] *)
Definition set (x : loc) (k : string) (v : value) : M unit :=
  fun h => (tt, alter (fun o : obj => <[k := v]> o) x h).

(** [delete(x.k)] *)
Definition del (x : loc) (k : string) : M unit :=
  fun h => (tt, alter (fun o : obj => delete k o) x h).

End Js.

Import Js.

Notation "'let*' x ':=' m 'in' k" := (bind m (fun x => k))
  (at level 10, x name, m at level 100, k at level 200).
Notation "m ';;' k" := (bind m (fun _ => k))
  (at level 100, k at level 200, right associativity).

(** ** String.prototype.match with the pattern '^https?://' *)

Module Pattern.

(** The pattern uses two constructs after the anchor: a literal character
    and an optional character ([s?]). *)
Inductive atom : Type :=
| Lit (c : ascii)
| Opt (c : ascii).

(** Match the atoms against the text starting at its first character
    (the [^] anchor; no flags, so characters are compared exactly). *)
Fixpoint match_here (re : list atom) (s : string) : bool :=
  match re with
  | [] => true
  | Lit c :: re' =>
      match s with
      | String c' s' => Ascii.eqb c c' && match_here re' s'
      | EmptyString => false
      end
  | Opt c :: re' =>
      match s with
      | String c' s' => (Ascii.eqb c c' && match_here re' s') || match_here re' s
      | EmptyString => match_here re' s
      end
  end.

(** ['^https?://'] *)
Definition url_pattern : list atom :=
  [Lit "h"; Lit "t"; Lit "t"; Lit "p"; Opt "s"; Lit ":"; Lit "/"; Lit "/"]%char.

(** [param.match('^https?://')] is truthy exactly when the pattern matches. *)
Definition matches_url (param : string) : bool := match_here url_pattern param.

(** The text begins with "http://" or "https://", written in lower case. *)
Definition lowercase_scheme (s : string) : Prop :=
  exists rest, s = "http://" +:+ rest \/ s = "https://" +:+ rest.

End Pattern.

(** ** lib/util.js *)

Module util.

(** Modelled from the spec: lib/util.js ([extend]) is not part of the source
    tree. Per section 4.1 the merge gives the fields of the first mapping
    precedence on key collision, lets the second mapping fill in what is
    absent, and does not modify the second mapping. The spec does not say
    where the result is stored: here it replaces the contents of the first
    argument, whose reference is returned. [Body.extend] below has the other
    possibility as well (a new mapping), and the properties that depend on
    where the result is stored are proved there, for both. *)
Definition extend (a b : loc) : M loc :=
  fun h =>
    let ob : obj := default ∅ (h !! b) in
    (a, alter (fun oa : obj => oa ∪ ob) a h).

End util.

(** ** textapi.js *)

(** The per-call argument: a bare string or a reference to a mapping. *)
Inductive CallInput : Type :=
| IStr (s : string)
| IObj (p : loc).

(** The client instance; [_options] refers to the configuration object. *)
Record Client : Type := { _options : loc }.

(** [this._options = options || {}] *)
Definition AYLIENTextAPI (options : option loc) : M Client :=
  match options with
  | Some o => ret {| _options := o |}
  | None => let* o := new_object ∅ in ret {| _options := o |}
  end.

Definition normalizeParams (this : Client) (param : CallInput) : M loc :=
  match param with
  | IStr s =>
      if Pattern.matches_url s then
        let* lit := new_object {[ "url" := VStr s ]} in
        util.extend lit (_options this)
      else
        let* lit := new_object {[ "text" := VStr s ]} in
        util.extend lit (_options this)
  | IObj p => util.extend p (_options this)
  end.

(** The requirement rule handed to the dispatcher: a field name (['url']), a
    group of alternatives ([['text', 'url']] inside a list) or a list of
    sub-rules. *)
#[warnings="-register-all"]
Inductive RequirementRule : Type :=
| Plain (field : string)
| OneOf (alternatives : list string)
| AllOf (rules : list RequirementRule).

(** Errors handed to the completion callback. [JsError m] is [new Error(m)],
    the one error textapi.js creates; the other three are the dispatcher's
    (section 7, kinds a, c and d): a validation error carries the names of the
    fields that are missing, each group of alternatives as one list. *)
Inductive Error : Type :=
| JsError (message : string)
| ValidationError (missing : list (list string))
| TransportError (cause : string)
| DecodeError (body : string).

(** Every operation ends in one call that leaves textapi.js: either
    [createAPIRequest(params, rule, callback)] or [callback(error)]. *)
Inductive Invocation : Type :=
| createAPIRequest (params : loc) (rule : RequirementRule)
| callback (err : Error).

Definition sentiment (this : Client) (params : CallInput) : M Invocation :=
  let* lit := new_object {[ "endpoint" := VStr "sentiment" ]} in
  let* n := normalizeParams this params in
  let* params := util.extend lit n in
  ret (createAPIRequest params (AllOf [OneOf ["text"; "url"]])).

Definition extract (this : Client) (params : CallInput) : M Invocation :=
  let* lit := new_object {[ "endpoint" := VStr "extract" ]} in
  let* n := normalizeParams this params in
  let* params := util.extend lit n in
  let* text := get params "text" in
  let* html := get params "html" in
  (if truthy text && negb (truthy html)
   then (set params "html" text ;; del params "text")
   else ret tt) ;;
  ret (createAPIRequest params (AllOf [OneOf ["url"; "html"]])).

Definition language (this : Client) (params : CallInput) : M Invocation :=
  let* lit := new_object {[ "endpoint" := VStr "language" ]} in
  let* n := normalizeParams this params in
  let* params := util.extend lit n in
  ret (createAPIRequest params (AllOf [OneOf ["text"; "url"]])).

Definition classify (this : Client) (params : CallInput) : M Invocation :=
  let* lit := new_object {[ "endpoint" := VStr "classify" ]} in
  let* n := normalizeParams this params in
  let* params := util.extend lit n in
  ret (createAPIRequest params (AllOf [OneOf ["text"; "url"]])).

Definition unsupervisedClassify (this : Client) (params : CallInput) : M Invocation :=
  let* lit := new_object {[ "endpoint" := VStr "classify/unsupervised" ]} in
  let* n := normalizeParams this params in
  let* params := util.extend lit n in
  ret (createAPIRequest params (AllOf [OneOf ["text"; "url"]; Plain "class"])).

Definition concepts (this : Client) (params : CallInput) : M Invocation :=
  let* lit := new_object {[ "endpoint" := VStr "concepts" ]} in
  let* n := normalizeParams this params in
  let* params := util.extend lit n in
  ret (createAPIRequest params (AllOf [OneOf ["text"; "url"]])).

Definition entities (this : Client) (params : CallInput) : M Invocation :=
  let* lit := new_object {[ "endpoint" := VStr "entities" ]} in
  let* n := normalizeParams this params in
  let* params := util.extend lit n in
  ret (createAPIRequest params (AllOf [OneOf ["text"; "url"]])).

Definition hashtags (this : Client) (params : CallInput) : M Invocation :=
  let* lit := new_object {[ "endpoint" := VStr "hashtags" ]} in
  let* n := normalizeParams this params in
  let* params := util.extend lit n in
  ret (createAPIRequest params (AllOf [OneOf ["text"; "url"]])).

Definition summarize_error : Error :=
  JsError "You must either provide url, or pair of text and title".

Definition summarize (this : Client) (params : CallInput) : M Invocation :=
  let* lit := new_object {[ "endpoint" := VStr "summarize" ]} in
  let* n := normalizeParams this params in
  let* params := util.extend lit n in
  let* url := get params "url" in
  let* text := get params "text" in
  let* title := get params "title" in
  if negb (truthy url) && (negb (truthy text) || negb (truthy title))
  then ret (callback summarize_error)
  else ret (createAPIRequest params (AllOf [])).

Definition related (this : Client) (params : CallInput) : M Invocation :=
  let* lit := new_object {[ "endpoint" := VStr "related" ]} in
  let* n := normalizeParams this params in
  let* params := util.extend lit n in
  let* text := get params "text" in
  let* phrase := get params "phrase" in
  (if truthy text && negb (truthy phrase)
   then (set params "phrase" text ;; del params "text")
   else ret tt) ;;
  ret (createAPIRequest params (Plain "phrase")).

Definition microformats (this : Client) (params : CallInput) : M Invocation :=
  let* lit := new_object {[ "endpoint" := VStr "microformats" ]} in
  let* n := normalizeParams this params in
  let* params := util.extend lit n in
  ret (createAPIRequest params (Plain "url")).

Definition imageTags (this : Client) (params : CallInput) : M Invocation :=
  let* lit := new_object {[ "endpoint" := VStr "image-tags" ]} in
  let* n := normalizeParams this params in
  let* params := util.extend lit n in
  ret (createAPIRequest params (Plain "url")).

(** The operations the client exposes, in the order textapi.js defines them. *)
Inductive Operation : Type :=
| Sentiment | Extract | Language | Classify | UnsupervisedClassify | Concepts
| Entities | Hashtags | Summarize | Related | Microformats | ImageTags.

#[global] Instance Operation_eq_dec : EqDecision Operation.
Proof. solve_decision. Defined.

Definition operations : list Operation :=
  [Sentiment; Extract; Language; Classify; UnsupervisedClassify; Concepts;
   Entities; Hashtags; Summarize; Related; Microformats; ImageTags].

(** The property of the client under which each operation is stored. *)
Definition method_name (op : Operation) : string :=
  match op with
  | Sentiment => "sentiment"
  | Extract => "extract"
  | Language => "language"
  | Classify => "classify"
  | UnsupervisedClassify => "unsupervisedClassify"
  | Concepts => "concepts"
  | Entities => "entities"
  | Hashtags => "hashtags"
  | Summarize => "summarize"
  | Related => "related"
  | Microformats => "microformats"
  | ImageTags => "imageTags"
  end.

(** [client[method_name op](params, callback)] *)
Definition invoke (op : Operation) : Client -> CallInput -> M Invocation :=
  match op with
  | Sentiment => sentiment
  | Extract => extract
  | Language => language
  | Classify => classify
  | UnsupervisedClassify => unsupervisedClassify
  | Concepts => concepts
  | Entities => entities
  | Hashtags => hashtags
  | Summarize => summarize
  | Related => related
  | Microformats => microformats
  | ImageTags => imageTags
  end.

(** ** The operation catalog read as data *)

Module Catalog.

(** What distinguishes one operation from another: the endpoint, the
    defaults the parameters are merged into, the requirement rule, the field
    a [text] parameter is renamed to (if any) and whether the hand-written
    precondition of [summarize] applies. *)
Record Descriptor : Type := {
  endpoint : string;
  defaults : obj;
  rule : RequirementRule;
  rename_text_to : option string;
  url_or_text_and_title : bool
}.

Definition plain (e : string) (r : RequirementRule) : Descriptor :=
  {| endpoint := e; defaults := {[ "endpoint" := VStr e ]}; rule := r;
     rename_text_to := None; url_or_text_and_title := false |}.

Definition text_or_url : RequirementRule := AllOf [OneOf ["text"; "url"]].

Definition descriptor (op : Operation) : Descriptor :=
  match op with
  | Sentiment => plain "sentiment" text_or_url
  | Extract =>
      {| endpoint := "extract"; defaults := {[ "endpoint" := VStr "extract" ]};
         rule := AllOf [OneOf ["url"; "html"]];
         rename_text_to := Some "html"; url_or_text_and_title := false |}
  | Language => plain "language" text_or_url
  | Classify => plain "classify" text_or_url
  | UnsupervisedClassify =>
      plain "classify/unsupervised" (AllOf [OneOf ["text"; "url"]; Plain "class"])
  | Concepts => plain "concepts" text_or_url
  | Entities => plain "entities" text_or_url
  | Hashtags => plain "hashtags" text_or_url
  | Summarize =>
      {| endpoint := "summarize"; defaults := {[ "endpoint" := VStr "summarize" ]};
         rule := AllOf [];
         rename_text_to := None; url_or_text_and_title := true |}
  | Related =>
      {| endpoint := "related"; defaults := {[ "endpoint" := VStr "related" ]};
         rule := Plain "phrase";
         rename_text_to := Some "phrase"; url_or_text_and_title := false |}
  | Microformats => plain "microformats" (Plain "url")
  | ImageTags => plain "image-tags" (Plain "url")
  end.

(** One interpreter for all descriptors: the shape shared by the twelve
    function bodies. *)
Definition run (d : Descriptor) (this : Client) (params : CallInput) : M Invocation :=
  let* lit := new_object (defaults d) in
  let* n := normalizeParams this params in
  let* params := util.extend lit n in
  (match rename_text_to d with
   | Some field =>
       let* text := get params "text" in
       let* old := get params field in
       if truthy text && negb (truthy old)
       then (set params field text ;; del params "text")
       else ret tt
   | None => ret tt
   end) ;;
  if url_or_text_and_title d then
    let* url := get params "url" in
    let* text := get params "text" in
    let* title := get params "title" in
    if negb (truthy url) && (negb (truthy text) || negb (truthy title))
    then ret (callback summarize_error)
    else ret (createAPIRequest params (rule d))
  else ret (createAPIRequest params (rule d)).

End Catalog.

(** ** lib/apirequest.js *)

Module apirequest.

(** Modelled from the spec: lib/apirequest.js ([createAPIRequest], the
    Request Dispatcher) is not part of the source tree. Section 4.2,
    step 1: a value counts as present when the key exists with a non-empty
    value. *)
Definition non_empty (v : value) : bool :=
  match v with
  | VUndefined | VNull => false
  | VStr s => negb (String.eqb s "")
  | VArr items => match items with [] => false | _ => true end
  | VBool _ | VNum _ => true
  end.

(** Modelled from the spec: section 4.2, step 1, "contains that key with a
    non-empty value". *)
Definition present (params : obj) (field : string) : bool :=
  match params !! field with
  | Some v => non_empty v
  | None => false
  end.

(** Modelled from the spec: section 4.2, step 1. A field name is satisfied
    iff present; a group of alternatives iff at least one is present; a list
    of sub-rules iff each is satisfied; the empty list trivially. *)
Fixpoint satisfied (params : obj) (r : RequirementRule) : bool :=
  match r with
  | Plain f => present params f
  | OneOf alts => existsb (present params) alts
  | AllOf rs => forallb (satisfied params) rs
  end.

(** Modelled from the spec: the unmet requirements, each as the list of
    field names that would satisfy it; this is what the validation error
    names. *)
Fixpoint missing (params : obj) (r : RequirementRule) : list (list string) :=
  match r with
  | Plain f => if present params f then [] else [[f]]
  | OneOf alts => if existsb (present params) alts then [] else [alts]
  | AllOf rs => flat_map (missing params) rs
  end.

(** Modelled from the spec: the outgoing request of section 4.2, step 2
    (method, scheme, host, endpoint path, headers, form-encoded parameters). *)
Record Request : Type := {
  method : string;
  secure : bool;
  host : string;
  path : string;
  headers : list (string * string);
  form : list (string * string)
}.

(** Modelled from the spec: what comes back from the transport (section 4.2,
    step 4), a connection failure or a response with its status code and
    body. *)
Inductive Reply : Type :=
| ConnectionFailed (cause : string)
| Received (status : Z) (body : string).

(** Modelled from the spec: what lies outside the client and is left open by
    the spec, namely the transport, the decoder of response bodies, the
    default host, the API base path and the names of the credential headers. *)
Record Environment : Type := {
  Json : Type;
  parse : string -> option Json;
  network : Request -> Reply;
  default_host : string;
  api_base : string;
  id_header : string;
  key_header : string
}.

(** Modelled from the spec: the form entries of one parameter (section 4.2,
    step 2); an array gives one entry per element under the same name. *)
Definition entries (kv : string * value) : list (string * string) :=
  match kv.2 with
  | VArr items => map (fun item => (kv.1, item)) items
  | VStr s => [(kv.1, s)]
  | VBool b => [(kv.1, if b then "true" else "false")]
  | VNum n => [(kv.1, pretty n)]
  | VUndefined | VNull => []
  end.

(** Modelled from the spec: the text of a string-valued parameter, as it is
    placed in the path and in the credential headers. *)
Definition text_of (v : value) : string :=
  match v with
  | VStr s => s
  | _ => ""
  end.

Section Dispatcher.

Variable env : Environment.

(** Modelled from the spec: section 4.2, step 2. *)
Definition serialize (params : obj) : Request :=
  {| method := "POST";
     secure := match params !! "https" with
               | Some (VBool false) => false
               | _ => true
               end;
     host := match params !! "host" with
             | Some (VStr h) => h
             | _ => default_host env
             end;
     path := api_base env +:+ text_of (prop params "endpoint");
     headers := [("Accept", "application/json");
                 (id_header env, text_of (prop params "application_id"));
                 (key_header env, text_of (prop params "application_key"))];
     form := flat_map entries (map_to_list params) |}.

(** Modelled from the spec: the observable events of one call, in order of
    occurrence. [EvRequest] is the one outbound request, [EvReturn] the
    moment the operation returns to its caller, and [EvCallback e r] is
    [callback(e, r)], with [None] for an argument that is absent, null or
    undefined. *)
Inductive Event : Type :=
| EvRequest (r : Request)
| EvReturn
| EvCallback (err : option Error) (result : option (Json env)).

(** Modelled from the spec: section 4.2, step 4. *)
Definition complete (reply : Reply) : Event :=
  match reply with
  | ConnectionFailed cause => EvCallback (Some (TransportError cause)) None
  | Received _ body =>
      match parse env body with
      | Some decoded => EvCallback None (Some decoded)
      | None => EvCallback (Some (DecodeError body)) None
      end
  end.

(** Modelled from the spec: section 4.2, [dispatch(params, rule,
    callback)]. The first component is what happens before the call
    returns, the second what happens afterwards. *)
Definition dispatch (params : obj) (r : RequirementRule) : list Event * list Event :=
  if satisfied params r then
    let request := serialize params in
    ([EvRequest request], [complete (network env request)])
  else
    ([EvCallback (Some (ValidationError (missing params r))) None], []).

(** Carrying out the call an operation ends in: the dispatcher on the
    contents of [params], or [callback(error)] with no result. *)
Definition perform (inv : Invocation) (h : heap) : list Event * list Event :=
  match inv with
  | createAPIRequest p r => dispatch (default ∅ (h !! p)) r
  | callback e => ([EvCallback (Some e) None], [])
  end.

(** The events of one operation call from store [h]. *)
Definition trace (op : Operation) (this : Client) (params : CallInput) (h : heap)
  : list Event :=
  let (inv, h') := invoke op this params h in
  let (before, after) := perform inv h' in
  before ++ [EvReturn] ++ after.

Definition is_callback (e : Event) : bool :=
  match e with EvCallback _ _ => true | _ => false end.

Definition is_return (e : Event) : bool :=
  match e with EvReturn => true | _ => false end.

End Dispatcher.

Arguments EvRequest {env} r.
Arguments EvReturn {env}.
Arguments EvCallback {env} err result.

End apirequest.

(** ** Contents of the mappings the client builds *)

(** The literal [normalizeParams] builds for a bare string. *)
Definition string_literal (s : string) : obj :=
  if Pattern.matches_url s then {[ "url" := VStr s ]} else {[ "text" := VStr s ]}.

(** The contents of the mapping [normalizeParams] returns, given the contents
    [c] of the configuration object. *)
Definition normalized (c : obj) (h : heap) (param : CallInput) : obj :=
  match param with
  | IStr s => string_literal s ∪ c
  | IObj p => default ∅ (h !! p) ∪ c
  end.

(** A mapping argument refers to an object of the store. *)
Definition input_in (h : heap) (param : CallInput) : Prop :=
  match param with
  | IStr _ => True
  | IObj p => p < length h
  end.

(** The first line of every operation:
    [params = util.extend({endpoint: e}, this.normalizeParams(params))]. *)
Definition prologue (lit0 : obj) (this : Client) (param : CallInput) : M loc :=
  let* lit := new_object lit0 in
  let* n := normalizeParams this param in
  util.extend lit n.

(** [if (params.text && !params.f) { params.f = params.text; delete(params.text); }] *)
Definition renamed (field : string) (o : obj) : obj :=
  if truthy (prop o "text") && negb (truthy (prop o field))
  then delete "text" (<[field := prop o "text"]> o)
  else o.

(** The optional renaming step of an operation. *)
Definition finished (d : Catalog.Descriptor) (o : obj) : obj :=
  match Catalog.rename_text_to d with
  | Some field => renamed field o
  | None => o
  end.

(** The contents of the object handed to the dispatcher, from the contents of
    the normalised mapping. *)
Definition dispatched (d : Catalog.Descriptor) (n : obj) : obj :=
  finished d (Catalog.defaults d ∪ n).

(** The call the operation ends in, from the contents of its [params]. *)
Definition decision (d : Catalog.Descriptor) (o : obj) (p : loc) : Invocation :=
  if Catalog.url_or_text_and_title d
     && (negb (truthy (prop o "url"))
         && (negb (truthy (prop o "text")) || negb (truthy (prop o "title"))))
  then callback summarize_error
  else createAPIRequest p (Catalog.rule d).

(** What follows the first line of an operation. *)
Definition epilogue (d : Catalog.Descriptor) (params : loc) : M Invocation :=
  (match Catalog.rename_text_to d with
   | Some field =>
       let* text := get params "text" in
       let* old := get params field in
       if truthy text && negb (truthy old)
       then (set params field text ;; del params "text")
       else ret tt
   | None => ret tt
   end) ;;
  if Catalog.url_or_text_and_title d then
    let* url := get params "url" in
    let* text := get params "text" in
    let* title := get params "title" in
    if negb (truthy url) && (negb (truthy text) || negb (truthy title))
    then ret (callback summarize_error)
    else ret (createAPIRequest params (Catalog.rule d))
  else ret (createAPIRequest params (Catalog.rule d)).

(** ** textapi.js statement by statement *)

(** The embedding above gives every operation the one call it ends in. The
    embedding in this module follows the same twelve bodies one statement at
    a time, in a setting where a body may call [createAPIRequest] and
    [callback] any number of times, and where a statement may throw. It also
    leaves open what the spec leaves open about [util.extend]. *)

Module Body.

(** Whether a merge stores its result in its first argument, which it then
    returns, or in a new mapping. lib/util.js is not in the source tree and
    the spec describes the contents of the merge only. *)
Inductive Storage : Type :=
| InPlace
| Fresh.

(** Modelled from the spec: lib/util.js ([extend]), with the contents of
    section 4.1 (the first mapping's fields take precedence, the second
    mapping fills in what is absent and is not modified) and the storage of
    the result as a parameter. *)
Definition extend (st : Storage) (a b : loc) : M loc :=
  match st with
  | InPlace => util.extend a b
  | Fresh =>
      fun h => (length h, h ++ [(default ∅ (h !! a) : obj) ∪ default ∅ (h !! b)])
  end.

(** How a call, or a statement, ends. *)
Inductive Completion (A : Type) : Type :=
| Returned (a : A)
| Thrown (e : Error).

Arguments Returned {A} a.
Arguments Thrown {A} e.

(** A call that leaves textapi.js, as the callee sees it:
    [createAPIRequest(params, rule, callback)] with the fields [params] has
    at that moment, or [callback(err)]. *)
Inductive Call : Type :=
| Dispatch (params : loc) (contents : obj) (rule : RequirementRule)
| CallBack (err : Error).

(** The store, and the calls made so far, oldest first. *)
Record World : Type := { store : heap; calls : list Call }.

(** Statements: they read and update the world and either return a value or
    throw. *)
Definition P (A : Type) : Type := World -> Completion A * World.

Definition unit_P {A} (a : A) : P A := fun w => (Returned a, w).

(** Sequencing: what follows a statement that throws is not run. *)
Definition then_P {A B} (m : P A) (k : A -> P B) : P B :=
  fun w =>
    match m w with
    | (Returned a, w1) => k a w1
    | (Thrown e, w1) => (Thrown e, w1)
    end.

(** A computation on the store alone. *)
Definition lift {A} (m : M A) : P A :=
  fun w =>
    let (a, h) := m (store w) in
    (Returned a, {| store := h; calls := calls w |}).

(** Reading or writing a property of something that is not an object. *)
Definition type_error : Error := JsError "TypeError".

(** [x.k] *)
Definition member (x : loc) (k : string) : P value :=
  fun w =>
    match store w !! x with
    | Some o => (Returned (prop o k), w)
    | None => (Thrown type_error, w)
    end.

(** [x.k = v] *)
Definition assign (x : loc) (k : string) (v : value) : P unit :=
  fun w =>
    match store w !! x with
    | Some o => (Returned tt, {| store := <[x := <[k := v]> o]> (store w);
                                 calls := calls w |})
    | None => (Thrown type_error, w)
    end.

(** [delete(x.k)] *)
Definition remove (x : loc) (k : string) : P unit :=
  fun w =>
    match store w !! x with
    | Some o => (Returned tt, {| store := <[x := delete k o]> (store w);
                                 calls := calls w |})
    | None => (Thrown type_error, w)
    end.

(** [createAPIRequest(params, rule, callback)] *)
Definition createAPIRequest (params : loc) (rule : RequirementRule) : P unit :=
  fun w =>
    (Returned tt,
     {| store := store w;
        calls := calls w ++ [Dispatch params (default ∅ (store w !! params)) rule] |}).

(** [callback(err)] *)
Definition callback (err : Error) : P unit :=
  fun w => (Returned tt, {| store := store w; calls := calls w ++ [CallBack err] |}).

End Body.

Notation "'let!' x ':=' m 'in' k" := (Body.then_P m (fun x => k))
  (at level 10, x name, m at level 100, k at level 200).
Notation "m ';;;' k" := (Body.then_P m (fun _ => k))
  (at level 100, k at level 200, right associativity).

Module Script.

Import Body.

Section Bodies.

Variable st : Storage.

Definition normalizeParams (this : Client) (param : CallInput) : M loc :=
  match param with
  | IStr s =>
      if Pattern.matches_url s then
        let* lit := new_object {[ "url" := VStr s ]} in
        extend st lit (_options this)
      else
        let* lit := new_object {[ "text" := VStr s ]} in
        extend st lit (_options this)
  | IObj p => extend st p (_options this)
  end.

Definition sentiment (this : Client) (params : CallInput) : P unit :=
  let! lit := lift (new_object {[ "endpoint" := VStr "sentiment" ]}) in
  let! n := lift (normalizeParams this params) in
  let! params := lift (extend st lit n) in
  createAPIRequest params (AllOf [OneOf ["text"; "url"]]).

Definition extract (this : Client) (params : CallInput) : P unit :=
  let! lit := lift (new_object {[ "endpoint" := VStr "extract" ]}) in
  let! n := lift (normalizeParams this params) in
  let! params := lift (extend st lit n) in
  let! text := member params "text" in
  let! html := member params "html" in
  (if truthy text && negb (truthy html)
   then (let! text' := member params "text" in
         assign params "html" text' ;;; remove params "text")
   else unit_P tt) ;;;
  createAPIRequest params (AllOf [OneOf ["url"; "html"]]).

Definition language (this : Client) (params : CallInput) : P unit :=
  let! lit := lift (new_object {[ "endpoint" := VStr "language" ]}) in
  let! n := lift (normalizeParams this params) in
  let! params := lift (extend st lit n) in
  createAPIRequest params (AllOf [OneOf ["text"; "url"]]).

Definition classify (this : Client) (params : CallInput) : P unit :=
  let! lit := lift (new_object {[ "endpoint" := VStr "classify" ]}) in
  let! n := lift (normalizeParams this params) in
  let! params := lift (extend st lit n) in
  createAPIRequest params (AllOf [OneOf ["text"; "url"]]).

Definition unsupervisedClassify (this : Client) (params : CallInput) : P unit :=
  let! lit := lift (new_object {[ "endpoint" := VStr "classify/unsupervised" ]}) in
  let! n := lift (normalizeParams this params) in
  let! params := lift (extend st lit n) in
  createAPIRequest params (AllOf [OneOf ["text"; "url"]; Plain "class"]).

Definition concepts (this : Client) (params : CallInput) : P unit :=
  let! lit := lift (new_object {[ "endpoint" := VStr "concepts" ]}) in
  let! n := lift (normalizeParams this params) in
  let! params := lift (extend st lit n) in
  createAPIRequest params (AllOf [OneOf ["text"; "url"]]).

Definition entities (this : Client) (params : CallInput) : P unit :=
  let! lit := lift (new_object {[ "endpoint" := VStr "entities" ]}) in
  let! n := lift (normalizeParams this params) in
  let! params := lift (extend st lit n) in
  createAPIRequest params (AllOf [OneOf ["text"; "url"]]).

Definition hashtags (this : Client) (params : CallInput) : P unit :=
  let! lit := lift (new_object {[ "endpoint" := VStr "hashtags" ]}) in
  let! n := lift (normalizeParams this params) in
  let! params := lift (extend st lit n) in
  createAPIRequest params (AllOf [OneOf ["text"; "url"]]).

Definition summarize (this : Client) (params : CallInput) : P unit :=
  let! lit := lift (new_object {[ "endpoint" := VStr "summarize" ]}) in
  let! n := lift (normalizeParams this params) in
  let! params := lift (extend st lit n) in
  let! url := member params "url" in
  let! text := member params "text" in
  let! title := member params "title" in
  if negb (truthy url) && (negb (truthy text) || negb (truthy title))
  then callback summarize_error
  else createAPIRequest params (AllOf []).

Definition related (this : Client) (params : CallInput) : P unit :=
  let! lit := lift (new_object {[ "endpoint" := VStr "related" ]}) in
  let! n := lift (normalizeParams this params) in
  let! params := lift (extend st lit n) in
  let! text := member params "text" in
  let! phrase := member params "phrase" in
  (if truthy text && negb (truthy phrase)
   then (let! text' := member params "text" in
         assign params "phrase" text' ;;; remove params "text")
   else unit_P tt) ;;;
  createAPIRequest params (Plain "phrase").

Definition microformats (this : Client) (params : CallInput) : P unit :=
  let! lit := lift (new_object {[ "endpoint" := VStr "microformats" ]}) in
  let! n := lift (normalizeParams this params) in
  let! params := lift (extend st lit n) in
  createAPIRequest params (Plain "url").

Definition imageTags (this : Client) (params : CallInput) : P unit :=
  let! lit := lift (new_object {[ "endpoint" := VStr "image-tags" ]}) in
  let! n := lift (normalizeParams this params) in
  let! params := lift (extend st lit n) in
  createAPIRequest params (Plain "url").

(** [client[method_name op](params, callback)] *)
Definition invoke (op : Operation) : Client -> CallInput -> P unit :=
  match op with
  | Sentiment => sentiment
  | Extract => extract
  | Language => language
  | Classify => classify
  | UnsupervisedClassify => unsupervisedClassify
  | Concepts => concepts
  | Entities => entities
  | Hashtags => hashtags
  | Summarize => summarize
  | Related => related
  | Microformats => microformats
  | ImageTags => imageTags
  end.

(** The first line of every body. *)
Definition prologue (lit0 : obj) (this : Client) (param : CallInput) : M loc :=
  let* lit := new_object lit0 in
  let* n := normalizeParams this param in
  extend st lit n.

(** One call of an operation, from store [h] with no call made yet. *)
Definition run (op : Operation) (this : Client) (param : CallInput) (h : heap)
  : Completion unit * World :=
  invoke op this param {| store := h; calls := [] |}.

End Bodies.

(** The last statement of a body, from the operation's descriptor. *)
Definition tail (d : Catalog.Descriptor) (params : loc) : P unit :=
  if Catalog.url_or_text_and_title d then
    let! url := member params "url" in
    let! text := member params "text" in
    let! title := member params "title" in
    if negb (truthy url) && (negb (truthy text) || negb (truthy title))
    then callback summarize_error
    else createAPIRequest params (Catalog.rule d)
  else createAPIRequest params (Catalog.rule d).

(** What follows the first line of a body, from the operation's descriptor. *)
Definition epilogue (d : Catalog.Descriptor) (params : loc) : P unit :=
  match Catalog.rename_text_to d with
  | Some field =>
      let! text := member params "text" in
      let! old := member params field in
      (if truthy text && negb (truthy old)
       then (let! text' := member params "text" in
             assign params field text' ;;; remove params "text")
       else unit_P tt) ;;;
      tail d params
  | None => tail d params
  end.

(** What the callee of a call does: the first component before the call
    returns, the second afterwards. *)
Definition events (env : apirequest.Environment) (c : Call)
  : list (apirequest.Event env) * list (apirequest.Event env) :=
  match c with
  | Dispatch _ contents rule => apirequest.dispatch env contents rule
  | CallBack err => ([apirequest.EvCallback (Some err) None], [])
  end.

(** The events of a sequence of calls made by one operation call: what the
    callees do at once, in the order of the calls, then the completions. *)
Definition trace (env : apirequest.Environment) (cs : list Call)
  : list (apirequest.Event env) :=
  flat_map (fun c => (events env c).1) cs ++ flat_map (fun c => (events env c).2) cs.

(** What a call hands over, without the location of the parameters. *)
Definition payload (c : Call) : (obj * RequirementRule) + Error :=
  match c with
  | Dispatch _ contents rule => inl (contents, rule)
  | CallBack err => inr err
  end.

End Script.

(** The call an operation makes, from the contents of its [params]. *)
Definition call_for (d : Catalog.Descriptor) (o : obj) (p : loc) : Body.Call :=
  match decision d o p with
  | createAPIRequest q r => Body.Dispatch q o r
  | callback e => Body.CallBack e
  end.

(** ** Request fields and the bare-string shorthand *)

(** The fields an operation reads from its parameters or requires of them. *)
Definition request_fields : list string :=
  ["url"; "text"; "title"; "html"; "phrase"; "class"].

(** A configuration that holds credentials and transport preference only:
    none of the request fields. *)
Definition credentials_only (c : obj) : Prop :=
  Forall (fun k => c !! k = None) request_fields.

(** The field under which an operation passes on a bare string: [url] for a
    URL, otherwise [text] or the field [text] is renamed to. *)
Definition string_field (op : Operation) (s : string) : string :=
  if Pattern.matches_url s then "url"
  else match Catalog.rename_text_to (Catalog.descriptor op) with
       | Some field => field
       | None => "text"
       end.

(** ** A client, a store and a remote service to evaluate on *)

Module Sample.

Definition config : obj :=
  {[ "application_id" := VStr "id"; "application_key" := VStr "key" ]}.

Definition client : Client := {| _options := 0 |}.

(** A store holding the configuration at location 0 and one caller mapping
    at location 1. *)
Definition store (caller : obj) : heap := [config; caller].

Definition env : apirequest.Environment :=
  {| apirequest.Json := string;
     apirequest.parse := fun body => if String.eqb body "" then None else Some body;
     apirequest.network := fun _ => apirequest.Received 200 "{}";
     apirequest.default_host := "api.example.com";
     apirequest.api_base := "/api/v1/";
     apirequest.id_header := "X-Application-Id";
     apirequest.key_header := "X-Application-Key" |}.

End Sample.

(** ** Reasoning about the store *)

Section Store.

Implicit Types (h : heap) (o c : obj) (l p : loc).

Lemma lookup_snoc_last h o : (h ++ [o]) !! length h = Some o.
Proof. rewrite lookup_app_r by lia. by rewrite Nat.sub_diag. Qed.

Lemma alter_snoc_last (f : obj -> obj) h o :
  alter f (length h) (h ++ [o]) = h ++ [f o].
Proof. rewrite alter_app_r_alt by lia. by rewrite Nat.sub_diag. Qed.

Lemma normalizeParams_string this s h c :
  h !! _options this = Some c ->
  normalizeParams this (IStr s) h = (length h, h ++ [string_literal s ∪ c]).
Proof.
  intros Hc. unfold normalizeParams, string_literal.
  destruct (Pattern.matches_url s); unfold bind, new_object, util.extend;
    rewrite (lookup_app_l_Some _ _ _ _ Hc); simpl;
    by rewrite alter_snoc_last.
Qed.

Lemma normalizeParams_mapping this p h c :
  h !! _options this = Some c ->
  normalizeParams this (IObj p) h = (p, alter (fun o : obj => o ∪ c) p h).
Proof. intros Hc. unfold normalizeParams, util.extend. by rewrite Hc. Qed.

(** What [normalizeParams] returns and what it leaves in the store. *)
Lemma normalizeParams_spec this param h c :
  h !! _options this = Some c -> input_in h param ->
  exists n hn,
    normalizeParams this param h = (n, hn) /\
    hn !! n = Some (normalized c h param) /\
    hn !! _options this = Some c.
Proof.
  intros Hc Hin. destruct param as [s | p].
  - exists (length h), (h ++ [string_literal s ∪ c]).
    split; [by apply normalizeParams_string |].
    split; [apply lookup_snoc_last | by apply lookup_app_l_Some].
  - simpl in Hin. destruct (lookup_lt_is_Some_2 h p Hin) as [o Ho].
    exists p, (alter (fun o : obj => o ∪ c) p h).
    split; [by apply normalizeParams_mapping |].
    split.
    + unfold normalized. by rewrite list_lookup_alter_eq, Ho.
    + destruct (decide (p = _options this)) as [-> | Hne].
      * rewrite list_lookup_alter_eq, Hc. simpl. by rewrite (idemp (∪) c).
      * by rewrite list_lookup_alter_ne.
Qed.

(** The mapping returned by a run of [normalizeParams] holds [normalized]. *)
Lemma normalizeParams_result this param h c n hn on :
  h !! _options this = Some c -> input_in h param ->
  normalizeParams this param h = (n, hn) -> hn !! n = Some on ->
  on = normalized c h param.
Proof.
  intros Hc Hin Hrun Hn.
  destruct (normalizeParams_spec this param h c Hc Hin) as (n' & hn' & Hrun' & Hn' & _).
  congruence.
Qed.

Lemma prologue_spec lit0 this param h c :
  h !! _options this = Some c -> input_in h param ->
  exists h',
    prologue lit0 this param h = (length h, h') /\
    h' !! length h = Some (lit0 ∪ normalized c h param) /\
    (forall l, l < length h -> h' !! l = (normalizeParams this param h).2 !! l).
Proof.
  intros Hc Hin. unfold prologue, bind, new_object.
  assert (Hc1 : (h ++ [lit0]) !! _options this = Some c)
    by by apply lookup_app_l_Some.
  destruct param as [s | p].
  - rewrite (normalizeParams_string this s _ c Hc1).
    rewrite (normalizeParams_string this s h c Hc).
    unfold util.extend. eexists. split; [reflexivity |].
    rewrite length_app. simpl.
    replace (length h + 1) with (length (h ++ [lit0]))
      by (rewrite length_app; reflexivity).
    rewrite lookup_snoc_last. simpl.
    rewrite <- (app_assoc h [lit0]). simpl.
    split.
    + rewrite list_lookup_alter_eq.
      rewrite (list_lookup_middle h [string_literal s ∪ c] lit0 (length h) eq_refl).
      reflexivity.
    + intros l Hl. rewrite list_lookup_alter_ne by lia.
      by rewrite !lookup_app_l by done.
  - simpl in Hin. destruct (lookup_lt_is_Some_2 h p Hin) as [o Ho].
    rewrite (normalizeParams_mapping this p _ c Hc1).
    rewrite (normalizeParams_mapping this p h c Hc).
    unfold util.extend. eexists. split; [reflexivity |].
    simpl. split.
    + rewrite list_lookup_alter_eq.
      rewrite (list_lookup_alter_ne _ _ p (length h)) by lia.
      rewrite lookup_snoc_last, list_lookup_alter_eq.
      rewrite (lookup_app_l_Some _ _ _ _ Ho), Ho. reflexivity.
    + intros l Hl. rewrite list_lookup_alter_ne by lia.
      rewrite alter_app_l by done.
      by rewrite lookup_app_l by (by rewrite length_alter).
Qed.

End Store.

(** ** Every operation, through its descriptor *)

Section Descriptors.

Import Catalog.

Implicit Types (h : heap) (o c : obj) (l p : loc) (d : Descriptor).

Lemma run_split d this param h :
  run d this param h =
  let (p, h1) := prologue (defaults d) this param h in epilogue d p h1.
Proof.
  unfold run, prologue, epilogue, bind, new_object.
  destruct (normalizeParams this param (h ++ [defaults d])) as [n h2].
  reflexivity.
Qed.

Lemma rename_step field p h o :
  h !! p = Some o ->
  exists h',
    (let* text := get p "text" in
     let* old := get p field in
     if truthy text && negb (truthy old)
     then (set p field text ;; del p "text")
     else ret tt) h = (tt, h') /\
    h' !! p = Some (renamed field o) /\
    (forall l, l <> p -> h' !! l = h !! l).
Proof.
  intros Ho. unfold bind, get, set, del, ret, renamed. rewrite Ho. simpl.
  destruct (truthy (prop o "text") && negb (truthy (prop o field))).
  - eexists. split; [reflexivity |]. split.
    + rewrite !list_lookup_alter_eq, Ho. reflexivity.
    + intros l Hl. by rewrite !list_lookup_alter_ne.
  - eexists. split; [reflexivity |]. by split.
Qed.

Lemma precondition_step d p h o :
  h !! p = Some o ->
  (if url_or_text_and_title d then
     let* url := get p "url" in
     let* text := get p "text" in
     let* title := get p "title" in
     if negb (truthy url) && (negb (truthy text) || negb (truthy title))
     then ret (callback summarize_error)
     else ret (createAPIRequest p (rule d))
   else ret (createAPIRequest p (rule d))) h = (decision d o p, h).
Proof.
  intros Ho. unfold decision, bind, get, ret.
  destruct (url_or_text_and_title d); [| reflexivity].
  rewrite Ho. simpl.
  by destruct (negb (truthy (prop o "url"))
               && (negb (truthy (prop o "text")) || negb (truthy (prop o "title")))).
Qed.

Lemma epilogue_spec d p h o :
  h !! p = Some o ->
  exists h',
    epilogue d p h = (decision d (finished d o) p, h') /\
    h' !! p = Some (finished d o) /\
    (forall l, l <> p -> h' !! l = h !! l).
Proof.
  intros Ho. unfold epilogue, finished.
  destruct (rename_text_to d) as [field |].
  - destruct (rename_step field p h o Ho) as (h' & Hrun & Hp & Hframe).
    exists h'. unfold bind at 1. rewrite Hrun.
    by rewrite (precondition_step d p h' _ Hp).
  - exists h. unfold bind at 1. simpl.
    by rewrite (precondition_step d p h o Ho).
Qed.

(** The behaviour of an operation described by [d], on a store that holds the
    configuration [c] and the caller's mapping. *)
Lemma run_spec d this param h c :
  h !! _options this = Some c -> input_in h param ->
  exists h',
    run d this param h =
      (decision d (dispatched d (normalized c h param)) (length h), h') /\
    h' !! length h = Some (dispatched d (normalized c h param)) /\
    (forall l, l < length h -> h' !! l = (normalizeParams this param h).2 !! l).
Proof.
  intros Hc Hin.
  destruct (prologue_spec (defaults d) this param h c Hc Hin)
    as (h1 & Hrun & Hp & Hframe).
  destruct (epilogue_spec d (length h) h1 _ Hp) as (h2 & Hrun2 & Hp2 & Hframe2).
  exists h2. rewrite run_split, Hrun, Hrun2. split; [done |]. split; [done |].
  intros l Hl. rewrite Hframe2 by lia. by apply Hframe.
Qed.

(** Each function of textapi.js is the interpretation of its descriptor. *)
Lemma invoke_run op this param h :
  invoke op this param h = run (descriptor op) this param h.
Proof. destruct op; reflexivity. Qed.

(** The defaults hold the endpoint only, so they hide no other field. *)
Lemma defaults_endpoint op :
  defaults (descriptor op) = {[ "endpoint" := VStr (endpoint (descriptor op)) ]}.
Proof. destruct op; reflexivity. Qed.

Lemma lookup_over_defaults op (n : obj) k :
  k <> "endpoint" -> (defaults (descriptor op) ∪ n) !! k = n !! k.
Proof.
  intros Hk. rewrite defaults_endpoint.
  apply lookup_union_r. by apply lookup_singleton_ne.
Qed.

Lemma prop_over_defaults op (n : obj) k :
  k <> "endpoint" -> prop (defaults (descriptor op) ∪ n) k = prop n k.
Proof. intros Hk. unfold prop. by rewrite lookup_over_defaults. Qed.

End Descriptors.

(** ** The URL test of [normalizeParams] *)

Section UrlPattern.

Import Pattern.

(** A text that starts with the scheme in lower case matches. *)
Lemma matches_url_http rest : matches_url ("http://" +:+ rest) = true.
Proof. reflexivity. Qed.

Lemma matches_url_https rest : matches_url ("https://" +:+ rest) = true.
Proof. reflexivity. Qed.

#[local] Ltac next_char H s :=
  destruct s as [| ? s]; cbn [match_here] in H; [discriminate |];
  apply andb_true_iff in H as [?E H]; apply Ascii.eqb_eq in E; subst.

(** Nothing else matches: the pattern has no flag, so every character of the
    scheme is compared exactly. *)
Lemma matches_url_inv s : matches_url s = true -> lowercase_scheme s.
Proof.
  unfold matches_url, url_pattern. intros H.
  do 4 next_char H s.
  destruct s as [| a s]; cbn [match_here] in H; [discriminate |].
  apply orb_true_iff in H as [H | H].
  - apply andb_true_iff in H as [E H]. apply Ascii.eqb_eq in E. subst.
    do 3 next_char H s. exists s. by right.
  - apply andb_true_iff in H as [E H]. apply Ascii.eqb_eq in E. subst.
    do 2 next_char H s. exists s. by left.
Qed.

Lemma matches_url_iff s : matches_url s = true <-> lowercase_scheme s.
Proof.
  split; [apply matches_url_inv |].
  intros [rest [-> | ->]]; [apply matches_url_http | apply matches_url_https].
Qed.

End UrlPattern.

(** ** Fields of a normalised bare string *)

Section StringInput.

Implicit Types (h : heap) (c : obj).

Lemma string_literal_url s c :
  Pattern.matches_url s = true -> c !! "text" = None ->
  (string_literal s ∪ c) !! "url" = Some (VStr s) /\
  (string_literal s ∪ c) !! "text" = None.
Proof.
  intros Hm Hc. unfold string_literal. rewrite Hm. split.
  - apply lookup_union_Some_l, lookup_singleton_eq.
  - apply lookup_union_None. split; [by apply lookup_singleton_ne | done].
Qed.

Lemma string_literal_text s c :
  Pattern.matches_url s = false -> c !! "url" = None ->
  (string_literal s ∪ c) !! "text" = Some (VStr s) /\
  (string_literal s ∪ c) !! "url" = None.
Proof.
  intros Hm Hc. unfold string_literal. rewrite Hm. split.
  - apply lookup_union_Some_l, lookup_singleton_eq.
  - apply lookup_union_None. split; [by apply lookup_singleton_ne | done].
Qed.

End StringInput.

(** ** Properties of the client *)

(** C3. A bare string that matches ['^https?://'] is normalised to a mapping
    whose [url] is that string and that has no [text] key; any other string
    to a mapping whose [text] is that string and that has no [url] key. The
    configuration, whose fields are the credentials and the transport
    preference, carries neither key. *)
Theorem C3_string_is_url_or_text this s h c :
  h !! _options this = Some c ->
  c !! "url" = None -> c !! "text" = None ->
  exists n hn out,
    normalizeParams this (IStr s) h = (n, hn) /\
    hn !! n = Some out /\
    if Pattern.matches_url s
    then out !! "url" = Some (VStr s) /\ out !! "text" = None
    else out !! "text" = Some (VStr s) /\ out !! "url" = None.
Proof.
  intros Hc Hurl Htext.
  exists (length h), (h ++ [string_literal s ∪ c]), (string_literal s ∪ c).
  split; [by apply normalizeParams_string |].
  split; [apply lookup_snoc_last |].
  destruct (Pattern.matches_url s) eqn:Hm.
  - by apply string_literal_url.
  - by apply string_literal_text.
Qed.

Lemma C3_string_is_url_or_text_witness :
  (exists n hn out,
      normalizeParams Sample.client (IStr "http://example.com") (Sample.store ∅) = (n, hn) /\
      hn !! n = Some out /\
      out !! "url" = Some (VStr "http://example.com") /\ out !! "text" = None) /\
  (exists n hn out,
      normalizeParams Sample.client (IStr "plain words") (Sample.store ∅) = (n, hn) /\
      hn !! n = Some out /\
      out !! "text" = Some (VStr "plain words") /\ out !! "url" = None).
Proof.
  split.
  - apply (C3_string_is_url_or_text Sample.client "http://example.com" (Sample.store ∅)
             Sample.config); reflexivity.
  - apply (C3_string_is_url_or_text Sample.client "plain words" (Sample.store ∅)
             Sample.config); reflexivity.
Defined.

(** C7 as stated fails: the scheme in upper case is not recognised, and the
    string is filed under [text]. *)
Lemma C7_uppercase_scheme_is_text :
  Pattern.matches_url "HTTP://example.com" = false /\
  exists n hn out,
    normalizeParams Sample.client (IStr "HTTP://example.com") (Sample.store ∅) = (n, hn) /\
    hn !! n = Some out /\
    out !! "url" = None /\
    out !! "text" = Some (VStr "HTTP://example.com").
Proof.
  split; [reflexivity |].
  eexists _, _, _. split; [reflexivity |]. split; [reflexivity |].
  split; reflexivity.
Qed.

(** C7, amended. The URL test compares the scheme exactly. A string that
    begins with "http://" or "https://" in lower case is classified as a URL
    and normalised to a mapping with [url] set and no [text]; and these are
    the only strings the test accepts, so a scheme in any other casing is
    classified as text. *)
Theorem C7_scheme_is_case_sensitive this s h c :
  h !! _options this = Some c -> c !! "text" = None ->
  Pattern.lowercase_scheme s ->
  Pattern.matches_url s = true /\
  (exists n hn out,
      normalizeParams this (IStr s) h = (n, hn) /\
      hn !! n = Some out /\
      out !! "url" = Some (VStr s) /\ out !! "text" = None) /\
  (forall t, Pattern.matches_url t = true <-> Pattern.lowercase_scheme t).
Proof.
  intros Hc Htext Hs. apply matches_url_iff in Hs.
  split; [done |]. split; [| apply matches_url_iff].
  exists (length h), (h ++ [string_literal s ∪ c]), (string_literal s ∪ c).
  split; [by apply normalizeParams_string |].
  split; [apply lookup_snoc_last |].
  by apply string_literal_url.
Qed.

Lemma C7_scheme_is_case_sensitive_witness :
  Pattern.matches_url "https://example.com" = true /\
  (exists n hn out,
      normalizeParams Sample.client (IStr "https://example.com") (Sample.store ∅) = (n, hn) /\
      hn !! n = Some out /\
      out !! "url" = Some (VStr "https://example.com") /\ out !! "text" = None) /\
  (forall t, Pattern.matches_url t = true <-> Pattern.lowercase_scheme t).
Proof.
  apply (C7_scheme_is_case_sensitive Sample.client "https://example.com"
           (Sample.store ∅) Sample.config);
    [reflexivity | reflexivity | exists "example.com"; right; reflexivity].
Defined.

(** C2. For a mapping input the merge keeps every field of the input, takes
    from the configuration exactly the fields the input lacks, and so the
    result holds [application_id] and [application_key] whenever the
    configuration does. *)
Theorem C2_input_fields_take_precedence this p h o c :
  h !! _options this = Some c -> h !! p = Some o ->
  is_Some (c !! "application_id") -> is_Some (c !! "application_key") ->
  exists n hn out,
    normalizeParams this (IObj p) h = (n, hn) /\
    hn !! n = Some out /\
    (forall k v, o !! k = Some v -> out !! k = Some v) /\
    (forall k, o !! k = None -> out !! k = c !! k) /\
    is_Some (out !! "application_id") /\
    is_Some (out !! "application_key").
Proof.
  intros Hc Ho Hid Hkey.
  exists p, (alter (fun o : obj => o ∪ c) p h), (o ∪ c).
  split; [by apply normalizeParams_mapping |].
  split; [by rewrite list_lookup_alter_eq, Ho |].
  split; [intros k v Hk; by apply lookup_union_Some_l |].
  split; [intros k Hk; by apply lookup_union_r |].
  split; apply lookup_union_is_Some; by right.
Qed.

Lemma C2_input_fields_take_precedence_witness :
  exists n hn out,
    normalizeParams Sample.client (IObj 1)
      (Sample.store {[ "text" := VStr "hello"; "application_id" := VStr "other" ]})
      = (n, hn) /\
    hn !! n = Some out /\
    (forall k v,
        ({[ "text" := VStr "hello"; "application_id" := VStr "other" ]} : obj) !! k = Some v ->
        out !! k = Some v) /\
    (forall k,
        ({[ "text" := VStr "hello"; "application_id" := VStr "other" ]} : obj) !! k = None ->
        out !! k = Sample.config !! k) /\
    is_Some (out !! "application_id") /\
    is_Some (out !! "application_key").
Proof.
  apply (C2_input_fields_take_precedence Sample.client 1
           (Sample.store {[ "text" := VStr "hello"; "application_id" := VStr "other" ]})
           {[ "text" := VStr "hello"; "application_id" := VStr "other" ]}
           Sample.config);
    [reflexivity | reflexivity | by eexists | by eexists].
Defined.

(** ** The precondition of [summarize] *)

(** C1 as stated fails: a mapping with an empty [url] holds a [url] field, yet
    [summarize] reports the precondition error instead of dispatching. *)
Lemma C1_empty_url_is_rejected :
  exists n hn on,
    normalizeParams Sample.client (IObj 1) (Sample.store {[ "url" := VStr "" ]}) = (n, hn) /\
    hn !! n = Some on /\
    on !! "url" = Some (VStr "") /\
    (summarize Sample.client (IObj 1) (Sample.store {[ "url" := VStr "" ]})).1
      = callback summarize_error.
Proof.
  eexists _, _, _. split; [reflexivity |]. split; [reflexivity |].
  split; reflexivity.
Qed.

Lemma decision_summarize (n : obj) (p : loc) :
  decision (Catalog.descriptor Summarize)
    (dispatched (Catalog.descriptor Summarize) n) p =
  if negb (truthy (prop n "url"))
     && (negb (truthy (prop n "text")) || negb (truthy (prop n "title")))
  then callback summarize_error
  else createAPIRequest p (AllOf []).
Proof.
  change (dispatched (Catalog.descriptor Summarize) n)
    with (Catalog.defaults (Catalog.descriptor Summarize) ∪ n).
  unfold decision. rewrite !(prop_over_defaults Summarize) by done.
  reflexivity.
Qed.

(** C1, amended. [summarize] tests the values, not the keys: when the
    normalised parameters hold a truthy [url], or a truthy [text] together
    with a truthy [title], the call ends in [createAPIRequest] with the empty
    rule; otherwise it ends in one [callback] with the precondition error,
    which is all that happens before the call returns, and the dispatcher is
    not entered. *)
Theorem C1_summarize_precondition env this param h c n hn on :
  h !! _options this = Some c -> input_in h param ->
  normalizeParams this param h = (n, hn) -> hn !! n = Some on ->
  if truthy (prop on "url") || (truthy (prop on "text") && truthy (prop on "title"))
  then exists p h',
      summarize this param h = (createAPIRequest p (AllOf []), h')
  else (exists h', summarize this param h = (callback summarize_error, h')) /\
       apirequest.trace env Summarize this param h
         = [apirequest.EvCallback (Some summarize_error) None; apirequest.EvReturn].
Proof.
  intros Hc Hin Hrun Hn.
  rewrite (normalizeParams_result this param h c n hn on Hc Hin Hrun Hn).
  destruct (run_spec (Catalog.descriptor Summarize) this param h c Hc Hin)
    as (h' & Hr & _ & _).
  rewrite <- invoke_run, decision_summarize in Hr.
  unfold apirequest.trace. rewrite Hr.
  change (invoke Summarize this param h) with (summarize this param h) in Hr.
  rewrite Hr. clear Hr.
  destruct (truthy (prop (normalized c h param) "url")),
           (truthy (prop (normalized c h param) "text")),
           (truthy (prop (normalized c h param) "title")); simpl; eauto.
Qed.

Lemma C1_summarize_precondition_witness :
  (exists p h',
      summarize Sample.client (IObj 1) (Sample.store {[ "url" := VStr "http://example.com" ]})
      = (createAPIRequest p (AllOf []), h')) /\
  ((exists h',
       summarize Sample.client (IObj 1) (Sample.store {[ "text" := VStr "a" ]})
       = (callback summarize_error, h')) /\
   apirequest.trace Sample.env Summarize Sample.client (IObj 1)
     (Sample.store {[ "text" := VStr "a" ]})
   = [apirequest.EvCallback (Some summarize_error) None; apirequest.EvReturn]).
Proof.
  split.
  - refine (C1_summarize_precondition Sample.env Sample.client (IObj 1)
              (Sample.store {[ "url" := VStr "http://example.com" ]}) Sample.config
              1 [Sample.config; {[ "url" := VStr "http://example.com" ]} ∪ Sample.config]
              ({[ "url" := VStr "http://example.com" ]} ∪ Sample.config) _ _ _ _);
      [reflexivity | simpl; lia | reflexivity | reflexivity].
  - refine (C1_summarize_precondition Sample.env Sample.client (IObj 1)
              (Sample.store {[ "text" := VStr "a" ]}) Sample.config
              1 [Sample.config; {[ "text" := VStr "a" ]} ∪ Sample.config]
              ({[ "text" := VStr "a" ]} ∪ Sample.config) _ _ _ _);
      [reflexivity | simpl; lia | reflexivity | reflexivity].
Defined.

(** ** The renaming step of [extract] and [related] *)

Lemma truthy_prop_lookup (o : obj) k :
  truthy (prop o k) = true -> o !! k = Some (prop o k).
Proof. unfold prop. by destruct (o !! k). Qed.

Lemma renamed_fields field (o : obj) :
  field <> "text" ->
  truthy (prop o "text") = true -> truthy (prop o field) = false ->
  renamed field o !! field = o !! "text" /\ renamed field o !! "text" = None.
Proof.
  intros Hne Ht Hf. unfold renamed. rewrite Ht, Hf. simpl. split.
  - rewrite lookup_delete_ne by done.
    by rewrite lookup_insert_eq, (truthy_prop_lookup o "text").
  - apply lookup_delete_eq.
Qed.

Lemma rename_spec op field this param h c :
  Catalog.rename_text_to (Catalog.descriptor op) = Some field ->
  field <> "text" -> field <> "endpoint" ->
  Catalog.url_or_text_and_title (Catalog.descriptor op) = false ->
  h !! _options this = Some c -> input_in h param ->
  truthy (prop (normalized c h param) "text") = true ->
  normalized c h param !! field = None ->
  exists p h' out,
    invoke op this param h = (createAPIRequest p (Catalog.rule (Catalog.descriptor op)), h') /\
    h' !! p = Some out /\
    out !! field = normalized c h param !! "text" /\
    out !! "text" = None.
Proof.
  intros Hren Hft Hfe Hpre Hc Hin Htext Hfield.
  destruct (run_spec (Catalog.descriptor op) this param h c Hc Hin)
    as (h' & Hr & Hp & _).
  rewrite <- invoke_run in Hr.
  exists (length h), h', (dispatched (Catalog.descriptor op) (normalized c h param)).
  split.
  { rewrite Hr. unfold decision. by rewrite Hpre. }
  split; [done |].
  unfold dispatched, finished. rewrite Hren.
  rewrite <- (lookup_over_defaults op (normalized c h param) "text") by done.
  apply renamed_fields; [done | |].
  - by rewrite prop_over_defaults.
  - rewrite prop_over_defaults by done. unfold prop. by rewrite Hfield.
Qed.

(** C6 as stated fails: an empty [text] is a [text] field, and [extract]
    leaves it in place without creating [html]. *)
Lemma C6_empty_text_is_not_renamed :
  exists n hn on,
    normalizeParams Sample.client (IObj 1) (Sample.store {[ "text" := VStr "" ]}) = (n, hn) /\
    hn !! n = Some on /\
    on !! "text" = Some (VStr "") /\ on !! "html" = None /\
    exists p r h' out,
      extract Sample.client (IObj 1) (Sample.store {[ "text" := VStr "" ]})
        = (createAPIRequest p r, h') /\
      h' !! p = Some out /\
      out !! "html" = None /\ out !! "text" = Some (VStr "").
Proof.
  eexists _, _, _. split; [reflexivity |]. split; [reflexivity |].
  split; [reflexivity |]. split; [reflexivity |].
  eexists _, _, _, _. split; [reflexivity |]. split; [reflexivity |].
  split; reflexivity.
Qed.

(** C6, amended. When the normalised parameters hold a truthy [text] (for a
    string: a non-empty one) and no [html], the object [extract] hands to the
    dispatcher holds that value under [html] and has no [text] key; likewise
    for [related] with [phrase]. *)
Theorem C6_text_is_renamed this param h c n hn on :
  h !! _options this = Some c -> input_in h param ->
  normalizeParams this param h = (n, hn) -> hn !! n = Some on ->
  truthy (prop on "text") = true ->
  (on !! "html" = None ->
   exists p h' out,
     extract this param h = (createAPIRequest p (AllOf [OneOf ["url"; "html"]]), h') /\
     h' !! p = Some out /\
     out !! "html" = on !! "text" /\ out !! "text" = None) /\
  (on !! "phrase" = None ->
   exists p h' out,
     related this param h = (createAPIRequest p (Plain "phrase"), h') /\
     h' !! p = Some out /\
     out !! "phrase" = on !! "text" /\ out !! "text" = None).
Proof.
  intros Hc Hin Hrun Hn Htext.
  rewrite (normalizeParams_result this param h c n hn on Hc Hin Hrun Hn) in *.
  split; intros Hfield.
  - by apply (rename_spec Extract "html" this param h c).
  - by apply (rename_spec Related "phrase" this param h c).
Qed.

Lemma C6_text_is_renamed_witness :
  (exists p h' out,
      extract Sample.client (IStr "<p>hello</p>") (Sample.store ∅)
        = (createAPIRequest p (AllOf [OneOf ["url"; "html"]]), h') /\
      h' !! p = Some out /\
      out !! "html" = Some (VStr "<p>hello</p>") /\ out !! "text" = None) /\
  (exists p h' out,
      related Sample.client (IStr "<p>hello</p>") (Sample.store ∅)
        = (createAPIRequest p (Plain "phrase"), h') /\
      h' !! p = Some out /\
      out !! "phrase" = Some (VStr "<p>hello</p>") /\ out !! "text" = None).
Proof.
  destruct (C6_text_is_renamed Sample.client (IStr "<p>hello</p>") (Sample.store ∅)
              Sample.config 2
              (Sample.store ∅ ++ [{[ "text" := VStr "<p>hello</p>" ]} ∪ Sample.config])
              ({[ "text" := VStr "<p>hello</p>" ]} ∪ Sample.config)
              eq_refl I eq_refl eq_refl eq_refl) as [Hextract Hrelated].
  split; [apply Hextract | apply Hrelated]; reflexivity.
Defined.

(** ** What the client writes to, and what it leaves alone *)

(** C8. Neither [normalizeParams] nor any operation changes the object
    [this._options] refers to: after the call it holds the same fields with
    the same values. *)
Theorem C8_configuration_is_not_modified this param h c :
  h !! _options this = Some c -> input_in h param ->
  (normalizeParams this param h).2 !! _options this = Some c /\
  forall op, (invoke op this param h).2 !! _options this = Some c.
Proof.
  intros Hc Hin.
  destruct (normalizeParams_spec this param h c Hc Hin) as (n & hn & Hrun & _ & Hkeep).
  assert (Hnorm : (normalizeParams this param h).2 !! _options this = Some c)
    by by rewrite Hrun.
  split; [done |]. intros op.
  destruct (run_spec (Catalog.descriptor op) this param h c Hc Hin)
    as (h' & Hr & _ & Hframe).
  rewrite invoke_run, Hr. simpl.
  rewrite Hframe by (by apply lookup_lt_Some with c). done.
Qed.

Lemma C8_configuration_is_not_modified_witness :
  (normalizeParams Sample.client (IObj 0) (Sample.store ∅)).2 !! 0 = Some Sample.config /\
  forall op, (invoke op Sample.client (IObj 0) (Sample.store ∅)).2 !! 0 = Some Sample.config.
Proof.
  apply (C8_configuration_is_not_modified Sample.client (IObj 0) (Sample.store ∅)
           Sample.config); [reflexivity | simpl; lia].
Defined.

(** ** The catalog of operations *)

(** C9 as stated fails: [operations] lists every operation of the client once,
    and there are not fourteen of them. *)
Lemma C9_not_fourteen_operations :
  (forall op, In op operations) /\ NoDup operations /\ length operations <> 14.
Proof.
  split; [intros []; simpl; tauto |].
  split; [by apply (bool_decide_unpack _) | discriminate].
Qed.

(** C9, amended. The client exposes exactly twelve named operations. Each is
    the interpretation of its descriptor: the endpoint, the defaults (the
    endpoint field alone), the requirement rule, and for three of them the
    renaming target or the precondition. The endpoints and rules are listed
    in the order of [operations]: [sentiment] has endpoint "sentiment" and
    rule [[['text','url']]], [unsupervisedClassify] has
    "classify/unsupervised" and [[['text','url'],'class']], [imageTags] has
    "image-tags" and ['url'], and so on. *)
Theorem C9_twelve_operations :
  length operations = 12 /\
  (forall op, In op operations) /\
  NoDup (map method_name operations) /\
  (forall op this param h,
      invoke op this param h = Catalog.run (Catalog.descriptor op) this param h) /\
  (forall op,
      Catalog.defaults (Catalog.descriptor op)
      = {[ "endpoint" := VStr (Catalog.endpoint (Catalog.descriptor op)) ]}) /\
  map (fun op => Catalog.endpoint (Catalog.descriptor op)) operations
  = ["sentiment"; "extract"; "language"; "classify"; "classify/unsupervised";
     "concepts"; "entities"; "hashtags"; "summarize"; "related"; "microformats";
     "image-tags"] /\
  map (fun op => Catalog.rule (Catalog.descriptor op)) operations
  = [AllOf [OneOf ["text"; "url"]]; AllOf [OneOf ["url"; "html"]];
     AllOf [OneOf ["text"; "url"]]; AllOf [OneOf ["text"; "url"]];
     AllOf [OneOf ["text"; "url"]; Plain "class"];
     AllOf [OneOf ["text"; "url"]]; AllOf [OneOf ["text"; "url"]];
     AllOf [OneOf ["text"; "url"]]; AllOf []; Plain "phrase"; Plain "url";
     Plain "url"] /\
  map (fun op => Catalog.rename_text_to (Catalog.descriptor op)) operations
  = [None; Some "html"; None; None; None; None; None; None; None;
     Some "phrase"; None; None] /\
  filter (fun op => Catalog.url_or_text_and_title (Catalog.descriptor op) = true)
    operations = [Summarize].
Proof.
  split; [reflexivity |].
  split; [intros []; simpl; tauto |].
  split; [by apply (bool_decide_unpack _) |].
  split; [apply invoke_run |].
  split; [apply defaults_endpoint |].
  repeat split.
Qed.

(** ** The dispatcher *)

Section Dispatch.

Import apirequest.

Variable env : Environment.

Lemma present_lookup (params : obj) field v :
  params !! field = Some v -> non_empty v = true -> present params field = true.
Proof. intros Hf Hv. unfold present. by rewrite Hf. Qed.

Lemma form_holds_string (params : obj) field s :
  params !! field = Some (VStr s) -> In (field, s) (form (serialize env params)).
Proof.
  intros Hf. simpl. apply in_flat_map. exists (field, VStr s). split.
  - by apply list_elem_of_In, elem_of_map_to_list.
  - simpl. by left.
Qed.

(** A request that passes validation is sent, and its completion is the only
    thing that happens after the call has returned. *)
Lemma dispatch_satisfied (params : obj) r :
  satisfied params r = true ->
  dispatch env params r
  = ([EvRequest (serialize env params)],
     [complete env (network env (serialize env params))]).
Proof. intros Hs. unfold dispatch. by rewrite Hs. Qed.

Lemma dispatch_unsatisfied (params : obj) r :
  satisfied params r = false ->
  dispatch env params r
  = ([EvCallback (Some (ValidationError (missing params r))) None], []).
Proof. intros Hs. unfold dispatch. by rewrite Hs. Qed.

(** The completion of a request is one callback, with an error or a result. *)
Lemma complete_outcome reply :
  exists err result,
    complete env reply = EvCallback err result /\
    ((is_Some err /\ result = None) \/ (err = None /\ is_Some result)).
Proof.
  destruct reply as [cause | status body]; simpl.
  - eexists _, _. split; [reflexivity |]. left. by split; [eexists |].
  - destruct (parse env body) as [decoded |].
    + eexists _, _. split; [reflexivity |]. right. by split; [| eexists].
    + eexists _, _. split; [reflexivity |]. left. by split; [eexists |].
Qed.

End Dispatch.

(** C4. Under the rule [[['text','url']]], parameters with neither a non-empty
    [text] nor a non-empty [url] make the dispatcher call back once before it
    returns, with the validation error that names the alternatives [text] and
    [url], and send nothing; parameters whose [text] is "hello" pass
    validation, and the request that is sent carries the form entry
    [text=hello]. *)
Theorem C4_text_or_url_rule env (params accepted : obj) :
  apirequest.present params "text" = false ->
  apirequest.present params "url" = false ->
  accepted !! "text" = Some (VStr "hello") ->
  apirequest.dispatch env params (AllOf [OneOf ["text"; "url"]])
  = ([apirequest.EvCallback (Some (ValidationError [["text"; "url"]])) None], []) /\
  exists request,
    apirequest.dispatch env accepted (AllOf [OneOf ["text"; "url"]])
    = ([apirequest.EvRequest request],
       [apirequest.complete env (apirequest.network env request)]) /\
    In ("text", "hello") (apirequest.form request).
Proof.
  intros Htext Hurl Hhello. split.
  - rewrite dispatch_unsatisfied.
    + cbn [apirequest.missing flat_map existsb app]. by rewrite Htext, Hurl.
    + cbn [apirequest.satisfied forallb existsb]. by rewrite Htext, Hurl.
  - exists (apirequest.serialize env accepted). split.
    + apply dispatch_satisfied.
      cbn [apirequest.satisfied forallb existsb].
      by rewrite (present_lookup accepted "text" (VStr "hello")).
    + by apply form_holds_string.
Qed.

Lemma C4_text_or_url_rule_witness :
  apirequest.dispatch Sample.env ∅ (AllOf [OneOf ["text"; "url"]])
  = ([apirequest.EvCallback (Some (ValidationError [["text"; "url"]])) None], []) /\
  exists request,
    apirequest.dispatch Sample.env {[ "text" := VStr "hello" ]} (AllOf [OneOf ["text"; "url"]])
    = ([apirequest.EvRequest request],
       [apirequest.complete Sample.env (apirequest.network Sample.env request)]) /\
    In ("text", "hello") (apirequest.form request).
Proof.
  apply (C4_text_or_url_rule Sample.env ∅ {[ "text" := VStr "hello" ]}); reflexivity.
Defined.


(** * Further properties of textapi.js *)

(** ** The URL test, continued *)

Section UrlPatternMore.

Import Pattern.

(** Text after a match does not undo it: the pattern has no end anchor. *)
Lemma match_here_app re s t :
  match_here re s = true -> match_here re (s +:+ t) = true.
Proof.
  revert s. induction re as [| [c | c] re IH]; intros s H; [done | |].
  - destruct s as [| c' s]; [done |]. cbn [match_here] in H.
    apply andb_true_iff in H as [Hc H].
    change (String c' s +:+ t) with (String c' (s +:+ t)).
    cbn [match_here]. rewrite Hc. by apply IH.
  - destruct s as [| c' s]; cbn [match_here] in H.
    + apply (IH "") in H. change ("" +:+ t) with t in *.
      destruct t as [| c' t]; cbn [match_here]; [done |].
      rewrite H. apply orb_true_r.
    + change (String c' s +:+ t) with (String c' (s +:+ t)).
      cbn [match_here]. apply orb_true_iff in H as [H | H].
      * apply andb_true_iff in H as [Hc H].
        rewrite Hc, (IH s H). reflexivity.
      * apply (IH (String c' s)) in H.
        change (String c' s +:+ t) with (String c' (s +:+ t)) in H.
        rewrite H. apply orb_true_r.
Qed.

Lemma lowercase_scheme_length s : lowercase_scheme s -> 7 <= String.length s.
Proof. intros [rest [-> | ->]]; simpl; lia. Qed.

Lemma lowercase_scheme_head s :
  lowercase_scheme s -> exists rest, s = String "h" rest.
Proof. intros [rest [-> | ->]]; eexists; reflexivity. Qed.

(** A string the test accepts is not empty, hence truthy. *)
Lemma matches_url_truthy s : matches_url s = true -> truthy (VStr s) = true.
Proof.
  intros H. apply matches_url_iff, lowercase_scheme_head in H as [rest ->].
  reflexivity.
Qed.

End UrlPatternMore.

(** X1. What follows the scheme plays no part in the URL test: a string that
    is classified as a URL stays one when any text is appended to it. *)
Theorem X1_url_test_ignores_what_follows s t :
  Pattern.matches_url s = true -> Pattern.matches_url (s +:+ t) = true.
Proof. apply match_here_app. Qed.

Lemma X1_url_test_ignores_what_follows_witness :
  Pattern.matches_url ("https://" +:+ " not a host at all") = true.
Proof.
  apply (X1_url_test_ignores_what_follows "https://" " not a host at all").
  reflexivity.
Defined.

(** X2. The test is anchored at the first character: a string shorter than
    seven characters (the empty string among them), and a string that starts
    with anything but a lower-case "h" (a URL after a leading space, say), is
    not classified as a URL. *)
Theorem X2_url_test_is_anchored s :
  String.length s < 7 \/ (exists a rest, s = String a rest /\ a <> "h"%char) ->
  Pattern.matches_url s = false.
Proof.
  intros Hs. destruct (Pattern.matches_url s) eqn:Hm; [| done].
  apply matches_url_iff in Hm. destruct Hs as [Hlen | (a & rest & -> & Ha)].
  - apply lowercase_scheme_length in Hm. lia.
  - apply lowercase_scheme_head in Hm as [rest' Hm]. congruence.
Qed.

Lemma X2_url_test_is_anchored_witness :
  Pattern.matches_url " http://example.com" = false.
Proof.
  apply (X2_url_test_is_anchored " http://example.com").
  right. exists " "%char, "http://example.com". split; [reflexivity | discriminate].
Defined.

(** ** Allocation and frame of an operation call *)

Section StoreMore.

Import Catalog.

Implicit Types (h : heap) (o c : obj) (l p : loc) (d : Descriptor).

Lemma normalizeParams_length this param h :
  length (normalizeParams this param h).2
  = length h + match param with IStr _ => 1 | IObj _ => 0 end.
Proof.
  destruct param as [s | p]; simpl.
  - destruct (Pattern.matches_url s); simpl;
      by rewrite length_alter, length_app.
  - rewrite length_alter. lia.
Qed.

Lemma prologue_result lit0 this param h :
  (prologue lit0 this param h).1 = length h /\
  length (prologue lit0 this param h).2
  = length h + match param with IStr _ => 2 | IObj _ => 1 end.
Proof.
  unfold prologue, bind, new_object.
  pose proof (normalizeParams_length this param (h ++ [lit0])) as Hlen.
  destruct (normalizeParams this param (h ++ [lit0])) as [n h2].
  simpl in *. rewrite length_alter, Hlen, length_app. simpl.
  split; [done |]. destruct param; lia.
Qed.

Lemma epilogue_length d p h : length (epilogue d p h).2 = length h.
Proof.
  unfold epilogue, bind, get, set, del, ret.
  destruct (rename_text_to d) as [field |];
    [destruct (truthy _ && negb _) |];
    destruct (url_or_text_and_title d);
    try destruct (negb _ && _);
    simpl; by rewrite ?length_alter.
Qed.

(** An operation that is not guarded by the precondition ends in the
    dispatcher, on the object it was given. *)
Lemma epilogue_unguarded d p h :
  url_or_text_and_title d = false ->
  (epilogue d p h).1 = createAPIRequest p (rule d).
Proof.
  intros Hd. unfold epilogue, bind, get, set, del, ret. rewrite Hd.
  destruct (rename_text_to d) as [field |]; [destruct (truthy _ && negb _) |];
    reflexivity.
Qed.

Lemma normalizeParams_frame this param h c l :
  h !! _options this = Some c ->
  l < length h -> param <> IObj l ->
  (normalizeParams this param h).2 !! l = h !! l.
Proof.
  intros Hc Hl Hne. destruct param as [s | p].
  - rewrite (normalizeParams_string this s h c Hc). simpl.
    by apply lookup_app_l.
  - rewrite (normalizeParams_mapping this p h c Hc). simpl.
    apply list_lookup_alter_ne. congruence.
Qed.

End StoreMore.

(** X10. Of the twelve operations only [summarize] ever calls the callback
    itself. Each of the other eleven ends, whatever it is given (an empty
    string or an empty mapping included), in [createAPIRequest] with its own
    rule, on an object created during the call. *)
Theorem X10_only_summarize_calls_back_itself op this param h :
  op <> Summarize ->
  (invoke op this param h).1
  = createAPIRequest (length h) (Catalog.rule (Catalog.descriptor op)).
Proof.
  intros Hop. rewrite invoke_run, run_split.
  pose proof (prologue_result (Catalog.defaults (Catalog.descriptor op)) this param h)
    as [Hp _].
  destruct (prologue _ this param h) as [p h1]. simpl in Hp. subst p.
  apply epilogue_unguarded. by destruct op.
Qed.

Lemma X10_only_summarize_calls_back_itself_witness :
  (invoke Related Sample.client (IStr "") (Sample.store ∅)).1
  = createAPIRequest 2 (Plain "phrase").
Proof.
  apply (X10_only_summarize_calls_back_itself Related Sample.client (IStr "")
           (Sample.store ∅)).
  discriminate.
Defined.

(** ** Construction *)

(** X3. A client constructed without options gets a new, empty configuration,
    and the store is otherwise as before. Normalising a bare string for such
    a client gives a mapping with one field and nothing else: [url] for a URL,
    [text] for any other string. No credentials are required at this point. *)
Theorem X3_client_without_options s h :
  exists this n hn,
    AYLIENTextAPI None h = (this, h ++ [∅]) /\
    normalizeParams this (IStr s) (h ++ [∅]) = (n, hn) /\
    hn !! n = Some (if Pattern.matches_url s
                    then {[ "url" := VStr s ]}
                    else {[ "text" := VStr s ]}) /\
    forall l, l < length h -> hn !! l = h !! l.
Proof.
  exists {| _options := length h |}, (length (h ++ [∅])),
         ((h ++ [∅]) ++ [string_literal s ∪ ∅]).
  split; [reflexivity |].
  split; [apply normalizeParams_string; apply lookup_snoc_last |].
  split.
  - rewrite lookup_snoc_last, (right_id_L ∅ (∪)). reflexivity.
  - intros l Hl. rewrite !lookup_app_l; [done | done |].
    rewrite length_app. lia.
Qed.

(** X4. A client constructed with options keeps a reference to the caller's
    object and copies nothing: construction leaves the store as it is, and a
    field the caller writes to that object afterwards is merged into the
    parameters of later calls. *)
Theorem X4_options_are_shared options k v s h c :
  h !! options = Some c ->
  string_literal s !! k = None ->
  exists n hn out,
    AYLIENTextAPI (Some options) h = ({| _options := options |}, h) /\
    (let* this := AYLIENTextAPI (Some options) in
     set options k v ;;
     normalizeParams this (IStr s)) h = (n, hn) /\
    hn !! n = Some out /\
    out !! k = Some v.
Proof.
  intros Hc Hk.
  assert (Hc' : alter (fun o : obj => <[k := v]> o) options h !! options
                = Some (<[k := v]> c))
    by by rewrite list_lookup_alter_eq, Hc.
  eexists _, _, _. split; [reflexivity |].
  split.
  { unfold bind, AYLIENTextAPI, ret, set.
    apply (normalizeParams_string {| _options := options |} s _ _ Hc'). }
  split; [apply lookup_snoc_last |].
  rewrite lookup_union_r by done. apply lookup_insert_eq.
Qed.

Lemma X4_options_are_shared_witness :
  exists n hn out,
    AYLIENTextAPI (Some 0) (Sample.store ∅) = ({| _options := 0 |}, Sample.store ∅) /\
    (let* this := AYLIENTextAPI (Some 0) in
     set 0 "https" (VBool false) ;;
     normalizeParams this (IStr "some text")) (Sample.store ∅) = (n, hn) /\
    hn !! n = Some out /\
    out !! "https" = Some (VBool false).
Proof.
  apply (X4_options_are_shared 0 "https" (VBool false) "some text" (Sample.store ∅)
           Sample.config); reflexivity.
Defined.

(** ** The object an operation builds *)

Section ParamsObject.

Import Catalog.

Implicit Types (h : heap) (o c on : obj) (l p : loc) (d : Descriptor).

(** The object created by the first line of an operation holds, when the
    operation is done with it, [dispatched] of the normalised parameters. *)
Lemma params_object op this param h c n hn on :
  h !! _options this = Some c -> input_in h param ->
  normalizeParams this param h = (n, hn) -> hn !! n = Some on ->
  (invoke op this param h).2 !! length h = Some (dispatched (descriptor op) on) /\
  (invoke op this param h).1
  = decision (descriptor op) (dispatched (descriptor op) on) (length h).
Proof.
  intros Hc Hin Hrun Hn.
  rewrite (normalizeParams_result this param h c n hn on Hc Hin Hrun Hn).
  destruct (run_spec (descriptor op) this param h c Hc Hin) as (h' & Hr & Hp & _).
  rewrite invoke_run, Hr. by split.
Qed.

Lemma rename_target op field :
  rename_text_to (descriptor op) = Some field ->
  field <> "endpoint" /\ field <> "text".
Proof. destruct op; intros [= <-]; by split. Qed.

Lemma renamed_other field o k :
  k <> field -> k <> "text" -> renamed field o !! k = o !! k.
Proof.
  intros Hf Ht. unfold renamed.
  destruct (truthy _ && negb _); [| done].
  rewrite lookup_delete_ne by done. by rewrite lookup_insert_ne.
Qed.

Lemma renamed_off field o :
  truthy (prop o "text") = false \/ truthy (prop o field) = true ->
  renamed field o = o.
Proof.
  intros H. unfold renamed.
  destruct H as [-> | ->]; [done | by rewrite andb_false_r].
Qed.

Lemma decision_call d o p q r :
  decision d o p = createAPIRequest q r -> q = p /\ r = rule d.
Proof.
  unfold decision. destruct (_ && _); [discriminate |].
  intros [= <- <-]. by split.
Qed.

End ParamsObject.

(** X6. The parameters an operation builds always carry the operation's own
    endpoint, also when the caller's mapping or the configuration holds an
    [endpoint] field of its own; and when the operation reaches the
    dispatcher it is with that object and with the operation's own rule. *)
Theorem X6_endpoint_is_fixed op this param h c :
  h !! _options this = Some c -> input_in h param ->
  exists out,
    (invoke op this param h).2 !! length h = Some out /\
    out !! "endpoint" = Some (VStr (Catalog.endpoint (Catalog.descriptor op))) /\
    forall q r, (invoke op this param h).1 = createAPIRequest q r ->
      q = length h /\ r = Catalog.rule (Catalog.descriptor op).
Proof.
  intros Hc Hin.
  destruct (normalizeParams_spec this param h c Hc Hin) as (n & hn & Hrun & Hn & _).
  destruct (params_object op this param h c n hn _ Hc Hin Hrun Hn) as [Hobj Hinv].
  eexists. split; [exact Hobj |]. split.
  - assert (Hd : (Catalog.defaults (Catalog.descriptor op) ∪ normalized c h param)
                 !! "endpoint"
                 = Some (VStr (Catalog.endpoint (Catalog.descriptor op)))).
    { apply lookup_union_Some_l. rewrite defaults_endpoint.
      apply lookup_singleton_eq. }
    unfold dispatched, finished.
    destruct (Catalog.rename_text_to (Catalog.descriptor op)) as [field |] eqn:Hren;
      [| done].
    destruct (rename_target op field Hren) as [Hfe Hft].
    by rewrite renamed_other.
  - intros q r Hq. rewrite Hinv in Hq. by apply decision_call in Hq.
Qed.

Lemma X6_endpoint_is_fixed_witness :
  exists out,
    (invoke Sentiment Sample.client (IObj 1)
       (Sample.store {[ "text" := VStr "hello"; "endpoint" := VStr "entities" ]})).2
      !! 2 = Some out /\
    out !! "endpoint" = Some (VStr "sentiment") /\
    forall q r,
      (invoke Sentiment Sample.client (IObj 1)
         (Sample.store {[ "text" := VStr "hello"; "endpoint" := VStr "entities" ]})).1
      = createAPIRequest q r ->
      q = 2 /\ r = AllOf [OneOf ["text"; "url"]].
Proof.
  apply (X6_endpoint_is_fixed Sentiment Sample.client (IObj 1)
           (Sample.store {[ "text" := VStr "hello"; "endpoint" := VStr "entities" ]})
           Sample.config); [reflexivity | simpl; lia].
Defined.

(** X7. Apart from [endpoint], every field of the normalised parameters
    reaches the object the operation builds unchanged, and no other field
    appears; for [extract] and [related] this holds for every field other
    than [text] and the field [text] is renamed to. *)
Theorem X7_fields_pass_through op this param h c n hn on k :
  h !! _options this = Some c -> input_in h param ->
  normalizeParams this param h = (n, hn) -> hn !! n = Some on ->
  k <> "endpoint" ->
  Catalog.rename_text_to (Catalog.descriptor op) = None \/
  (k <> "text" /\ Catalog.rename_text_to (Catalog.descriptor op) <> Some k) ->
  exists out,
    (invoke op this param h).2 !! length h = Some out /\
    out !! k = on !! k.
Proof.
  intros Hc Hin Hrun Hn Hk Hren.
  destruct (params_object op this param h c n hn on Hc Hin Hrun Hn) as [Hobj _].
  eexists. split; [exact Hobj |].
  rewrite <- (lookup_over_defaults op on k Hk).
  unfold dispatched, finished.
  destruct (Catalog.rename_text_to (Catalog.descriptor op)) as [field |]; [| done].
  destruct Hren as [? | [Ht Hf]]; [done |].
  apply renamed_other; congruence.
Qed.

Lemma X7_fields_pass_through_witness :
  exists out,
    (invoke Extract Sample.client (IObj 1)
       (Sample.store {[ "text" := VStr "<p>x</p>"; "best_image" := VBool true ]})).2
      !! 2 = Some out /\
    out !! "best_image"
    = ({[ "text" := VStr "<p>x</p>"; "best_image" := VBool true ]} ∪ Sample.config : obj)
        !! "best_image".
Proof.
  apply (X7_fields_pass_through Extract Sample.client (IObj 1)
           (Sample.store {[ "text" := VStr "<p>x</p>"; "best_image" := VBool true ]})
           Sample.config 1
           [Sample.config;
            {[ "text" := VStr "<p>x</p>"; "best_image" := VBool true ]} ∪ Sample.config]
           ({[ "text" := VStr "<p>x</p>"; "best_image" := VBool true ]} ∪ Sample.config)
           "best_image");
    [reflexivity | simpl; lia | reflexivity | reflexivity | discriminate
    | right; split; discriminate].
Defined.

(** X8. [extract] and [related] rename nothing when [text] is falsy (absent,
    empty, 0, false, null) or when the target field ([html], [phrase]) is
    already truthy: a given [html] is never overwritten, and [text] is then
    sent along with it. Every field but [endpoint] is as normalised. *)
Theorem X8_truthy_target_is_kept op field this param h c n hn on :
  h !! _options this = Some c -> input_in h param ->
  normalizeParams this param h = (n, hn) -> hn !! n = Some on ->
  Catalog.rename_text_to (Catalog.descriptor op) = Some field ->
  truthy (prop on "text") = false \/ truthy (prop on field) = true ->
  exists out,
    (invoke op this param h).2 !! length h = Some out /\
    forall k, k <> "endpoint" -> out !! k = on !! k.
Proof.
  intros Hc Hin Hrun Hn Hren Hguard.
  destruct (params_object op this param h c n hn on Hc Hin Hrun Hn) as [Hobj _].
  destruct (rename_target op field Hren) as [Hfe _].
  eexists. split; [exact Hobj |]. intros k Hk.
  unfold dispatched, finished. rewrite Hren, renamed_off.
  - by apply lookup_over_defaults.
  - by rewrite !prop_over_defaults.
Qed.

Lemma X8_truthy_target_is_kept_witness :
  exists out,
    (invoke Extract Sample.client (IObj 1)
       (Sample.store {[ "text" := VStr "words"; "html" := VStr "<p>x</p>" ]})).2
      !! 2 = Some out /\
    forall k, k <> "endpoint" ->
      out !! k
      = ({[ "text" := VStr "words"; "html" := VStr "<p>x</p>" ]} ∪ Sample.config : obj) !! k.
Proof.
  apply (X8_truthy_target_is_kept Extract "html" Sample.client (IObj 1)
           (Sample.store {[ "text" := VStr "words"; "html" := VStr "<p>x</p>" ]})
           Sample.config 1
           [Sample.config;
            {[ "text" := VStr "words"; "html" := VStr "<p>x</p>" ]} ∪ Sample.config]
           ({[ "text" := VStr "words"; "html" := VStr "<p>x</p>" ]} ∪ Sample.config));
    [reflexivity | simpl; lia | reflexivity | reflexivity | reflexivity
    | right; reflexivity].
Defined.

(** X9. [extract] and [related] do rename when [text] is truthy and the target
    field is falsy, and that includes a target that is present: an [html] (or
    [phrase]) given as the empty string, 0, false or null is overwritten with
    the value of [text], and [text] is removed. *)
Theorem X9_falsy_target_is_overwritten op field this param h c n hn on :
  h !! _options this = Some c -> input_in h param ->
  normalizeParams this param h = (n, hn) -> hn !! n = Some on ->
  Catalog.rename_text_to (Catalog.descriptor op) = Some field ->
  truthy (prop on "text") = true -> truthy (prop on field) = false ->
  exists out,
    (invoke op this param h).2 !! length h = Some out /\
    out !! field = on !! "text" /\ out !! "text" = None.
Proof.
  intros Hc Hin Hrun Hn Hren Htext Hfield.
  destruct (params_object op this param h c n hn on Hc Hin Hrun Hn) as [Hobj _].
  destruct (rename_target op field Hren) as [Hfe Hft].
  eexists. split; [exact Hobj |].
  unfold dispatched, finished. rewrite Hren.
  rewrite <- (lookup_over_defaults op on "text") by done.
  apply renamed_fields; [done | |]; by rewrite prop_over_defaults.
Qed.

Lemma X9_falsy_target_is_overwritten_witness :
  exists out,
    (invoke Related Sample.client (IObj 1)
       (Sample.store {[ "text" := VStr "android"; "phrase" := VStr "" ]})).2
      !! 2 = Some out /\
    out !! "phrase"
    = ({[ "text" := VStr "android"; "phrase" := VStr "" ]} ∪ Sample.config : obj) !! "text" /\
    out !! "text" = None.
Proof.
  apply (X9_falsy_target_is_overwritten Related "phrase" Sample.client (IObj 1)
           (Sample.store {[ "text" := VStr "android"; "phrase" := VStr "" ]})
           Sample.config 1
           [Sample.config;
            {[ "text" := VStr "android"; "phrase" := VStr "" ]} ∪ Sample.config]
           ({[ "text" := VStr "android"; "phrase" := VStr "" ]} ∪ Sample.config));
    [reflexivity | simpl; lia | reflexivity | reflexivity | reflexivity
    | reflexivity | reflexivity].
Defined.

(** ** The bare-string shorthand, operation by operation *)

(** Membership of a given name in [request_fields]. *)
Ltac request_field := unfold request_fields; repeat constructor.

Section BareString.

Import Catalog.

Implicit Types (h : heap) (o c on : obj) (l p : loc) (d : Descriptor).

Lemma credentials_only_lookup c k :
  credentials_only c -> k ∈ request_fields -> c !! k = None.
Proof. intros Hc Hk. by apply (proj1 (Forall_forall _ _) Hc). Qed.

Lemma request_field_cases k :
  k ∈ request_fields ->
  k = "url" \/ k = "text" \/ k = "title" \/ k = "html" \/ k = "phrase" \/ k = "class".
Proof.
  unfold request_fields. rewrite !elem_of_cons, elem_of_nil. tauto.
Qed.

Lemma request_field_not_endpoint k : k ∈ request_fields -> k <> "endpoint".
Proof.
  intros Hk ->. apply request_field_cases in Hk.
  repeat destruct Hk as [Hk | Hk]; discriminate.
Qed.

(** Request fields of the parameters built from a bare string, before the
    renaming step: those of the string's literal. *)
Lemma string_params_lookup op s c k :
  credentials_only c -> k ∈ request_fields ->
  (defaults (descriptor op) ∪ (string_literal s ∪ c)) !! k = string_literal s !! k.
Proof.
  intros Hc Hk.
  rewrite lookup_over_defaults by by apply request_field_not_endpoint.
  rewrite lookup_union, (credentials_only_lookup c k Hc Hk).
  by destruct (string_literal s !! k).
Qed.

Lemma string_params_prop op s c k :
  credentials_only c -> k ∈ request_fields ->
  prop (defaults (descriptor op) ∪ (string_literal s ∪ c)) k = prop (string_literal s) k.
Proof. intros Hc Hk. unfold prop. by rewrite string_params_lookup. Qed.

Lemma string_normalized this s h c :
  h !! _options this = Some c ->
  exists n hn,
    normalizeParams this (IStr s) h = (n, hn) /\
    hn !! n = Some (string_literal s ∪ c).
Proof.
  intros Hc.
  destruct (normalizeParams_spec this (IStr s) h c Hc I) as (n & hn & Hrun & Hn & _).
  by exists n, hn.
Qed.

Lemma non_empty_string_truthy s : s <> "" -> truthy (VStr s) = true.
Proof.
  intros Hs. simpl. destruct (String.eqb_spec s ""); [done | reflexivity].
Qed.

End BareString.

(** X13. Given a non-empty bare string and a configuration that holds no
    request field, the parameters an operation builds carry the string under
    exactly one request field: [url] if the string is a URL; otherwise [html]
    for [extract], [phrase] for [related] and [text] for the other ten. The
    remaining request fields ([title] and [class] among them) are absent. *)
Theorem X13_bare_string_field op this s h c :
  h !! _options this = Some c -> credentials_only c -> s <> "" ->
  exists out,
    (invoke op this (IStr s) h).2 !! length h = Some out /\
    out !! string_field op s = Some (VStr s) /\
    forall k, k ∈ request_fields -> k <> string_field op s -> out !! k = None.
Proof.
  intros Hc Hcred Hs.
  destruct (string_normalized this s h c Hc) as (n & hn & Hrun & Hn).
  destruct (params_object op this (IStr s) h c n hn _ Hc I Hrun Hn) as [Hobj _].
  eexists. split; [exact Hobj |].
  pose proof (non_empty_string_truthy s Hs) as Htruthy.
  pose proof (fun k => string_params_lookup op s c k Hcred) as Hlook.
  pose proof (fun k => string_params_prop op s c k Hcred) as Hprop.
  unfold dispatched, finished, string_field, string_literal in *.
  destruct (Pattern.matches_url s) eqn:Hm.
  - (* a URL: nothing is renamed, there is no [text] *)
    assert (Hoff : forall field,
               renamed field (Catalog.defaults (Catalog.descriptor op)
                                ∪ ({[ "url" := VStr s ]} ∪ c))
               = Catalog.defaults (Catalog.descriptor op) ∪ ({[ "url" := VStr s ]} ∪ c)).
    { intros field. apply renamed_off. left.
      rewrite Hprop by request_field. reflexivity. }
    destruct (Catalog.rename_text_to (Catalog.descriptor op)) as [field |];
      rewrite ?Hoff.
    all: split; [rewrite Hlook by request_field;
                 apply lookup_singleton_eq |].
    all: intros k Hk Hne; rewrite (Hlook k Hk); by apply lookup_singleton_ne.
  - destruct (Catalog.rename_text_to (Catalog.descriptor op)) as [field |] eqn:Hren.
    + destruct (rename_target op field Hren) as [Hfe Hft].
      assert (Hfield : field ∈ request_fields)
        by (destruct op; simpl in Hren; try discriminate Hren;
            injection Hren as <-; request_field).
      destruct (renamed_fields field
                  (Catalog.defaults (Catalog.descriptor op) ∪ ({[ "text" := VStr s ]} ∪ c)))
        as [Hnew Hgone]; [done | |  |].
      { rewrite Hprop by request_field. exact Htruthy. }
      { rewrite (Hprop field Hfield). unfold prop.
        by rewrite lookup_singleton_ne. }
      split.
      * rewrite Hnew, Hlook by request_field.
        apply lookup_singleton_eq.
      * intros k Hk Hne. destruct (decide (k = "text")) as [-> | Hkt]; [done |].
        rewrite renamed_other, (Hlook k Hk) by done.
        by apply lookup_singleton_ne.
    + split.
      * rewrite Hlook by request_field.
        apply lookup_singleton_eq.
      * intros k Hk Hne. rewrite (Hlook k Hk). by apply lookup_singleton_ne.
Qed.

Lemma X13_bare_string_field_witness :
  exists out,
    (invoke Related Sample.client (IStr "android") (Sample.store ∅)).2 !! 2 = Some out /\
    out !! "phrase" = Some (VStr "android") /\
    forall k, k ∈ request_fields -> k <> "phrase" -> out !! k = None.
Proof.
  apply (X13_bare_string_field Related Sample.client "android" (Sample.store ∅)
           Sample.config);
    [reflexivity | repeat constructor | discriminate].
Defined.

(** The call [summarize] ends in when it is given a bare string. *)
Lemma summarize_string_decision s c p :
  credentials_only c ->
  decision (Catalog.descriptor Summarize)
    (dispatched (Catalog.descriptor Summarize) (string_literal s ∪ c)) p
  = if Pattern.matches_url s
    then createAPIRequest p (AllOf [])
    else callback summarize_error.
Proof.
  intros Hcred. rewrite decision_summarize.
  assert (Hp : forall k, k ∈ request_fields ->
                 prop (string_literal s ∪ c) k = prop (string_literal s) k).
  { intros k Hk. unfold prop. rewrite lookup_union, (credentials_only_lookup c k Hcred Hk).
    by destruct (string_literal s !! k). }
  rewrite !Hp by request_field.
  unfold string_literal. destruct (Pattern.matches_url s) eqn:Hm.
  - change (prop {[ "url" := VStr s ]} "url") with (VStr s).
    by rewrite (matches_url_truthy s Hm).
  - change (prop {[ "text" := VStr s ]} "url") with VUndefined.
    change (prop {[ "text" := VStr s ]} "title") with VUndefined.
    cbn [truthy negb andb]. by rewrite orb_true_r.
Qed.

(** X14. With a configuration that holds no request field, [summarize] given
    a bare string dispatches exactly when the string is a URL: any other
    string, however long, ends in the precondition error, because a bare
    string cannot carry a [title]. *)
Theorem X14_summarize_bare_string this s h c :
  h !! _options this = Some c -> credentials_only c ->
  (summarize this (IStr s) h).1
  = if Pattern.matches_url s
    then createAPIRequest (length h) (AllOf [])
    else callback summarize_error.
Proof.
  intros Hc Hcred.
  destruct (string_normalized this s h c Hc) as (n & hn & Hrun & Hn).
  destruct (params_object Summarize this (IStr s) h c n hn _ Hc I Hrun Hn) as [_ Hinv].
  change (invoke Summarize this (IStr s) h) with (summarize this (IStr s) h) in Hinv.
  rewrite Hinv. by apply summarize_string_decision.
Qed.

Lemma X14_summarize_bare_string_witness :
  (summarize Sample.client (IStr "A long article text without a title.") (Sample.store ∅)).1
  = callback summarize_error.
Proof.
  refine (X14_summarize_bare_string Sample.client "A long article text without a title."
            (Sample.store ∅) Sample.config _ _);
    [reflexivity | repeat constructor].
Defined.

(** ** The empty string, and [summarize] once its precondition holds *)

Section EndToEnd.

Import Catalog.

Implicit Types (h : heap) (o c on : obj) (l p : loc) (d : Descriptor).

(** Request fields of the parameters built from the empty string: [text] is
    the empty string, and that is all. *)
Lemma empty_string_params op c k :
  credentials_only c -> k ∈ request_fields ->
  dispatched (descriptor op) (string_literal "" ∪ c) !! k
  = if decide (k = "text") then Some (VStr "") else None.
Proof.
  intros Hc Hk. unfold dispatched, finished.
  assert (Hoff : forall field,
             renamed field (defaults (descriptor op) ∪ (string_literal "" ∪ c))
             = defaults (descriptor op) ∪ (string_literal "" ∪ c)).
  { intros field. apply renamed_off. left.
    rewrite string_params_prop by (done || request_field). reflexivity. }
  destruct (rename_text_to (descriptor op)); rewrite ?Hoff;
    rewrite (string_params_lookup op "" c k Hc Hk);
    change (string_literal "") with ({[ "text" := VStr "" ]} : obj);
    rewrite lookup_singleton; by repeat case_decide.
Qed.

(** The events of a call, from the parameters the operation builds. *)
Lemma trace_spec env op this param h c n hn on :
  h !! _options this = Some c -> input_in h param ->
  normalizeParams this param h = (n, hn) -> hn !! n = Some on ->
  apirequest.trace env op this param h
  = match decision (descriptor op) (dispatched (descriptor op) on) (length h) with
    | createAPIRequest _ r =>
        let (before, after) :=
          apirequest.dispatch env (dispatched (descriptor op) on) r in
        before ++ [apirequest.EvReturn] ++ after
    | callback e => [apirequest.EvCallback (Some e) None; apirequest.EvReturn]
    end.
Proof.
  intros Hc Hin Hrun Hn.
  destruct (params_object op this param h c n hn on Hc Hin Hrun Hn) as [Hobj Hinv].
  unfold apirequest.trace.
  destruct (invoke op this param h) as [inv h']. simpl in Hobj, Hinv. subst inv.
  destruct (decision _ _ _) as [q r | e] eqn:Hd; [| reflexivity].
  apply decision_call in Hd as [-> ->]. simpl. by rewrite Hobj.
Qed.

End EndToEnd.

(** X15. Given the empty string, every operation builds parameters whose only
    request field is [text], holding the empty string: the string is filed as
    text, and [extract] and [related] leave it there instead of renaming it. *)
Theorem X15_empty_string_stays_text op this h c k :
  h !! _options this = Some c -> credentials_only c -> k ∈ request_fields ->
  exists out,
    (invoke op this (IStr "") h).2 !! length h = Some out /\
    out !! k = if decide (k = "text") then Some (VStr "") else None.
Proof.
  intros Hc Hcred Hk.
  destruct (string_normalized this "" h c Hc) as (n & hn & Hrun & Hn).
  destruct (params_object op this (IStr "") h c n hn _ Hc I Hrun Hn) as [Hobj _].
  eexists. split; [exact Hobj |]. by apply empty_string_params.
Qed.

Lemma X15_empty_string_stays_text_witness :
  exists out,
    (invoke Extract Sample.client (IStr "") (Sample.store ∅)).2 !! 2 = Some out /\
    out !! "html" = None.
Proof.
  refine (X15_empty_string_stays_text Extract Sample.client (Sample.store ∅)
            Sample.config "html" _ _ _);
    [reflexivity | repeat constructor | request_field].
Defined.

(** X16. With the dispatcher as section 4.2 describes it, the empty string
    never reaches the network, whichever operation it is given to: the call
    consists of one callback with an error, made before the call returns
    (the precondition error for [summarize], a validation error for the
    others). *)
Theorem X16_empty_string_is_never_sent env op this h c :
  h !! _options this = Some c -> credentials_only c ->
  exists e,
    apirequest.trace env op this (IStr "") h
    = [apirequest.EvCallback (Some e) None; apirequest.EvReturn].
Proof.
  intros Hc Hcred.
  destruct (string_normalized this "" h c Hc) as (n & hn & Hrun & Hn).
  rewrite (trace_spec env op this (IStr "") h c n hn _ Hc I Hrun Hn).
  assert (Hpresent : forall k, k ∈ request_fields ->
             apirequest.present
               (dispatched (Catalog.descriptor op) (string_literal "" ∪ c)) k = false).
  { intros k Hk. unfold apirequest.present.
    rewrite (empty_string_params op c k Hcred Hk). by case_decide. }
  destruct (decide (op = Summarize)) as [-> | Hop].
  { rewrite summarize_string_decision by done. by eexists. }
  destruct (decision _ _ _) as [q r | e] eqn:Hd; [| by eexists].
  apply decision_call in Hd as [_ ->].
  rewrite dispatch_unsatisfied; [by eexists |].
  destruct op; try done;
    cbn [Catalog.descriptor Catalog.plain Catalog.rule Catalog.text_or_url
         apirequest.satisfied forallb existsb];
    by rewrite ?Hpresent by request_field.
Qed.

Lemma X16_empty_string_is_never_sent_witness :
  exists e,
    apirequest.trace Sample.env Microformats Sample.client (IStr "") (Sample.store ∅)
    = [apirequest.EvCallback (Some e) None; apirequest.EvReturn].
Proof.
  apply (X16_empty_string_is_never_sent Sample.env Microformats Sample.client
           (Sample.store ∅) Sample.config);
    [reflexivity | repeat constructor].
Defined.

(** X17. With the dispatcher as section 4.2 describes it, [summarize] has no
    validation error: its rule is empty, so once the precondition holds the
    call sends one request, built from the endpoint and all the normalised
    parameters, returns, and calls back once when the request completes. *)
Theorem X17_summarize_has_no_validation_error env this param h c n hn on :
  h !! _options this = Some c -> input_in h param ->
  normalizeParams this param h = (n, hn) -> hn !! n = Some on ->
  truthy (prop on "url") || (truthy (prop on "text") && truthy (prop on "title")) = true ->
  exists request,
    request = apirequest.serialize env ({[ "endpoint" := VStr "summarize" ]} ∪ on) /\
    apirequest.trace env Summarize this param h
    = [apirequest.EvRequest request; apirequest.EvReturn;
       apirequest.complete env (apirequest.network env request)].
Proof.
  intros Hc Hin Hrun Hn Hpre.
  eexists. split; [reflexivity |].
  rewrite (trace_spec env Summarize this param h c n hn on Hc Hin Hrun Hn).
  rewrite decision_summarize.
  destruct (truthy (prop on "url")), (truthy (prop on "text")),
           (truthy (prop on "title")); try discriminate Hpre; reflexivity.
Qed.

Lemma X17_summarize_has_no_validation_error_witness :
  exists request,
    request = apirequest.serialize Sample.env
                ({[ "endpoint" := VStr "summarize" ]}
                   ∪ ({[ "text" := VStr "body"; "title" := VStr "head" ]} ∪ Sample.config)) /\
    apirequest.trace Sample.env Summarize Sample.client (IObj 1)
      (Sample.store {[ "text" := VStr "body"; "title" := VStr "head" ]})
    = [apirequest.EvRequest request; apirequest.EvReturn;
       apirequest.complete Sample.env (apirequest.network Sample.env request)].
Proof.
  apply (X17_summarize_has_no_validation_error Sample.env Sample.client (IObj 1)
           (Sample.store {[ "text" := VStr "body"; "title" := VStr "head" ]})
           Sample.config 1
           [Sample.config;
            {[ "text" := VStr "body"; "title" := VStr "head" ]} ∪ Sample.config]
           ({[ "text" := VStr "body"; "title" := VStr "head" ]} ∪ Sample.config));
    [reflexivity | simpl; lia | reflexivity | reflexivity | reflexivity].
Defined.

(** * The bodies statement by statement *)

(** ** One call, no exception *)

Section ScriptFacts.

Import Catalog.

Implicit Types (st : Body.Storage) (h : heap) (o c on : obj) (l p : loc)
  (d : Descriptor) (cs : list Body.Call).

(** Every body is its first line followed by the rest, read off its
    descriptor. *)
Lemma script_split st op this param w :
  Script.invoke st op this param w
  = Body.then_P (Body.lift (Script.prologue st (defaults (descriptor op)) this param))
      (Script.epilogue (descriptor op)) w.
Proof.
  destruct w as [h cs].
  unfold Script.prologue, Body.then_P, Body.lift, bind, new_object. simpl.
  destruct op; simpl;
    unfold Script.sentiment, Script.extract, Script.language, Script.classify,
      Script.unsupervisedClassify, Script.concepts, Script.entities,
      Script.hashtags, Script.summarize, Script.related, Script.microformats,
      Script.imageTags, Body.then_P, Body.lift, new_object; simpl;
    match goal with
    | |- context [Script.normalizeParams st this param ?h1] =>
        destruct (Script.normalizeParams st this param h1) as [n h2]
    end; simpl;
    destruct (Body.extend st _ n h2) as [q h3]; reflexivity.
Qed.

(** With the result stored in place the first line is the one of the
    embedding above. *)
Lemma prologue_in_place lit0 this param h :
  Script.prologue Body.InPlace lit0 this param h = prologue lit0 this param h.
Proof. destruct param; reflexivity. Qed.

Lemma normalizeParams_in_place this param h :
  Script.normalizeParams Body.InPlace this param h = normalizeParams this param h.
Proof. destruct param; reflexivity. Qed.

Lemma normalizeParams_fresh_string this s h c :
  h !! _options this = Some c ->
  Script.normalizeParams Body.Fresh this (IStr s) h
  = (length h + 1, (h ++ [string_literal s]) ++ [string_literal s ∪ c]).
Proof.
  intros Hc. unfold Script.normalizeParams, string_literal.
  destruct (Pattern.matches_url s); unfold bind, new_object; simpl;
    rewrite lookup_snoc_last, (lookup_app_l_Some _ _ _ _ Hc), length_app; reflexivity.
Qed.

Lemma normalizeParams_fresh_mapping this p h o c :
  h !! _options this = Some c -> h !! p = Some o ->
  Script.normalizeParams Body.Fresh this (IObj p) h = (length h, h ++ [o ∪ c]).
Proof. intros Hc Ho. simpl. by rewrite Hc, Ho. Qed.

(** What [normalizeParams] returns holds [normalized], however the merge
    stores its result. *)
Lemma normalizeParams_script_spec st this param h c :
  h !! _options this = Some c -> input_in h param ->
  exists n hn,
    Script.normalizeParams st this param h = (n, hn) /\
    hn !! n = Some (normalized c h param) /\
    hn !! _options this = Some c /\
    length h <= length hn.
Proof.
  intros Hc Hin. destruct st.
  - destruct (normalizeParams_spec this param h c Hc Hin) as (n & hn & Hrun & Hn & Hkeep).
    exists n, hn. rewrite normalizeParams_in_place.
    split; [done |]. split; [done |]. split; [done |].
    pose proof (normalizeParams_length this param h) as Hlen.
    rewrite Hrun in Hlen. simpl in Hlen. lia.
  - destruct param as [s | p].
    + eexists _, _. split; [by apply normalizeParams_fresh_string |].
      split; [| split].
      * replace (length h + 1) with (length (h ++ [string_literal s]))
          by (rewrite length_app; reflexivity).
        apply lookup_snoc_last.
      * rewrite <- app_assoc. by apply lookup_app_l_Some.
      * rewrite !length_app. lia.
    + simpl in Hin. destruct (lookup_lt_is_Some_2 h p Hin) as [o Ho].
      eexists _, _. split; [by apply normalizeParams_fresh_mapping |].
      split; [| split].
      * rewrite lookup_snoc_last. unfold normalized. by rewrite Ho.
      * by apply lookup_app_l_Some.
      * rewrite length_app. lia.
Qed.

(** The objects [normalizeParams] leaves alone: all that existed, but for
    the mapping it was given when the merge stores in place. *)
Lemma normalizeParams_script_frame st this param h c l :
  h !! _options this = Some c ->
  l < length h -> st = Body.Fresh \/ param <> IObj l ->
  (Script.normalizeParams st this param h).2 !! l = h !! l.
Proof.
  intros Hc Hl Hne. destruct st.
  - destruct Hne as [? | Hne]; [done |].
    rewrite normalizeParams_in_place. by apply normalizeParams_frame with c.
  - destruct param as [s | p].
    + rewrite (normalizeParams_fresh_string this s h c Hc). simpl.
      rewrite <- app_assoc. by apply lookup_app_l.
    + simpl. by apply lookup_app_l.
Qed.

(** The first line of a body: the object it yields, and what it leaves of
    the store. *)
Lemma prologue_script_spec st lit0 this param h c :
  h !! _options this = Some c -> input_in h param ->
  exists q h',
    Script.prologue st lit0 this param h = (q, h') /\
    h' !! q = Some (lit0 ∪ normalized c h param) /\
    length h <= q /\
    (forall l, l < length h ->
       h' !! l = (Script.normalizeParams st this param h).2 !! l).
Proof.
  intros Hc Hin. destruct st.
  - destruct (prologue_spec lit0 this param h c Hc Hin) as (h' & Hrun & Hq & Hframe).
    exists (length h), h'. rewrite prologue_in_place.
    split; [done |]. split; [done |]. split; [done |].
    intros l Hl. rewrite normalizeParams_in_place. by apply Hframe.
  - unfold Script.prologue, bind, new_object.
    assert (Hc1 : (h ++ [lit0]) !! _options this = Some c)
      by by apply lookup_app_l_Some.
    assert (Hin1 : input_in (h ++ [lit0]) param).
    { destruct param; [done | simpl in *; rewrite length_app; lia]. }
    destruct (normalizeParams_script_spec Body.Fresh this param _ c Hc1 Hin1)
      as (n & hn & Hrun & Hn & _ & Hlen).
    rewrite Hrun. simpl.
    assert (Hlit : hn !! length h = Some lit0).
    { pose proof (normalizeParams_script_frame Body.Fresh this param (h ++ [lit0]) c
                    (length h) Hc1) as Hf.
      rewrite Hrun in Hf. simpl in Hf. rewrite Hf, ?lookup_snoc_last;
        [done | rewrite length_app; simpl; lia | by left]. }
    assert (Hnorm : normalized c (h ++ [lit0]) param = normalized c h param).
    { destruct param as [s | p]; [done |]. simpl in *. by rewrite lookup_app_l. }
    eexists _, _. split; [reflexivity |].
    rewrite Hlit, Hn, Hnorm. simpl.
    split; [apply lookup_snoc_last |].
    rewrite length_app in Hlen. split; [lia |].
    intros l Hl. rewrite lookup_app_l by lia.
    pose proof (normalizeParams_script_frame Body.Fresh this param (h ++ [lit0]) c l Hc1)
      as Hf1.
    rewrite Hrun in Hf1. simpl in Hf1.
    rewrite Hf1 by (rewrite ?length_app; auto; lia).
    rewrite (normalizeParams_script_frame Body.Fresh this param h c l Hc Hl)
      by by left.
    by apply lookup_app_l.
Qed.

(** The object the first line yields exists, whatever the body is given. *)
Lemma prologue_script_valid st lit0 this param h :
  is_Some ((Script.prologue st lit0 this param h).2
             !! (Script.prologue st lit0 this param h).1).
Proof.
  destruct st.
  - rewrite prologue_in_place.
    destruct (prologue_result lit0 this param h) as [-> Hlen].
    apply lookup_lt_is_Some. rewrite Hlen. destruct param; lia.
  - unfold Script.prologue, bind, new_object.
    destruct (Script.normalizeParams Body.Fresh this param (h ++ [lit0])) as [n hn].
    simpl. rewrite lookup_snoc_last. by eexists.
Qed.

(** The rest of a body, run on an object that exists: it returns, having
    made exactly one call. *)
Lemma tail_script d p h o cs :
  h !! p = Some o ->
  Script.tail d p {| Body.store := h; Body.calls := cs |}
  = (Body.Returned tt,
     {| Body.store := h; Body.calls := cs ++ [call_for d o p] |}).
Proof.
  intros Ho. unfold Script.tail, call_for, decision.
  unfold Body.then_P, Body.member, Body.callback, Body.createAPIRequest. simpl.
  destruct (url_or_text_and_title d); simpl; repeat (rewrite Ho; simpl); [| done].
  destruct (truthy (prop o "url")), (truthy (prop o "text")),
           (truthy (prop o "title")); simpl; rewrite ?Ho; reflexivity.
Qed.

Lemma epilogue_script d p h o cs :
  h !! p = Some o ->
  exists h',
    Script.epilogue d p {| Body.store := h; Body.calls := cs |}
    = (Body.Returned tt,
       {| Body.store := h'; Body.calls := cs ++ [call_for d (finished d o) p] |}) /\
    h' !! p = Some (finished d o) /\
    (forall l, l <> p -> h' !! l = h !! l).
Proof.
  intros Ho.
  pose proof (lookup_lt_Some _ _ _ Ho) as Hp.
  unfold Script.epilogue, finished.
  destruct (rename_text_to d) as [field |];
    [| exists h; by split; [apply tail_script |]].
  unfold renamed.
  unfold Body.then_P at 1. unfold Body.member at 1. simpl. rewrite Ho.
  unfold Body.then_P at 1. unfold Body.member at 1. simpl. rewrite Ho.
  destruct (truthy (prop o "text") && negb (truthy (prop o field))).
  - unfold Body.then_P at 1. unfold Body.then_P at 1.
    unfold Body.member at 1. simpl. rewrite Ho.
    unfold Body.then_P at 1. unfold Body.assign. simpl. rewrite Ho.
    unfold Body.remove. simpl.
    rewrite list_lookup_insert_eq, list_insert_insert_eq by done.
    eexists. split; [apply tail_script; by apply list_lookup_insert_eq |].
    split; [by apply list_lookup_insert_eq |].
    intros l Hl. by apply list_lookup_insert_ne.
  - unfold Body.then_P at 1. unfold Body.unit_P.
    exists h. by split; [apply tail_script |].
Qed.

(** Whatever it is given, an operation returns, having made one call. *)
Lemma script_total st op this param h :
  exists h' call,
    Script.run st op this param h
    = (Body.Returned tt, {| Body.store := h'; Body.calls := [call] |}).
Proof.
  unfold Script.run. rewrite script_split. unfold Body.then_P, Body.lift. simpl.
  pose proof (prologue_script_valid st (defaults (descriptor op)) this param h) as [o Ho].
  destruct (Script.prologue st (defaults (descriptor op)) this param h) as [q h1].
  simpl in Ho.
  destruct (epilogue_script (descriptor op) q h1 o [] Ho) as (h' & Hrun & _).
  rewrite Hrun. by eexists _, _.
Qed.

(** An operation on a store that holds the configuration and the caller's
    mapping: the call it makes and what it leaves of the store. *)
Lemma script_spec st op this param h c :
  h !! _options this = Some c -> input_in h param ->
  exists q h',
    Script.run st op this param h
    = (Body.Returned tt,
       {| Body.store := h';
          Body.calls := [call_for (descriptor op)
                           (dispatched (descriptor op) (normalized c h param)) q] |}) /\
    h' !! q = Some (dispatched (descriptor op) (normalized c h param)) /\
    length h <= q /\
    (forall l, l < length h ->
       h' !! l = (Script.normalizeParams st this param h).2 !! l).
Proof.
  intros Hc Hin.
  unfold Script.run. rewrite script_split. unfold Body.then_P, Body.lift. simpl.
  destruct (prologue_script_spec st (defaults (descriptor op)) this param h c Hc Hin)
    as (q & h1 & Hrun & Hq & Hle & Hframe).
  rewrite Hrun.
  destruct (epilogue_script (descriptor op) q h1 _ [] Hq) as (h' & Hrun' & Hq' & Hframe').
  rewrite Hrun'. exists q, h'. split; [done |]. split; [done |]. split; [done |].
  intros l Hl. rewrite Hframe' by lia. by apply Hframe.
Qed.

End ScriptFacts.

(** ** The two embeddings agree *)

Section Agreement.

Import Catalog.

Implicit Types (st : Body.Storage) (h : heap) (o c on : obj) (l p : loc)
  (d : Descriptor).

(** What a call hands over does not depend on where the parameters are. *)
Lemma payload_call_for d o p :
  Script.payload (call_for d o p)
  = match decision d o 0 with
    | createAPIRequest _ r => inl (o, r)
    | callback e => inr e
    end.
Proof. unfold call_for, decision. by destruct (_ && _). Qed.

(** With the result of a merge stored in place, the statement-level body
    makes the one call that the embedding above gives the operation, with
    the same parameters. *)
Lemma script_agrees op this param h c :
  h !! _options this = Some c -> input_in h param ->
  (Script.run Body.InPlace op this param h).1 = Body.Returned tt /\
  map Script.payload (Body.calls (Script.run Body.InPlace op this param h).2)
  = [match (invoke op this param h).1 with
     | createAPIRequest q r =>
         inl (default ∅ ((invoke op this param h).2 !! q), r)
     | callback e => inr e
     end].
Proof.
  intros Hc Hin.
  destruct (script_spec Body.InPlace op this param h c Hc Hin)
    as (q & h' & Hrun & _).
  destruct (normalizeParams_spec this param h c Hc Hin) as (n & hn & Hn & Hon & _).
  destruct (params_object op this param h c n hn _ Hc Hin Hn Hon) as [Hobj Hinv].
  rewrite Hrun. split; [done |]. simpl.
  rewrite payload_call_for, Hinv. unfold decision.
  destruct (_ && _); [done |]. by rewrite Hobj.
Qed.

(** The caller's mapping after [normalizeParams]. *)
Lemma normalizeParams_script_mapping st this p h o c :
  h !! _options this = Some c -> h !! p = Some o ->
  (Script.normalizeParams st this (IObj p) h).1
  = match st with Body.InPlace => p | Body.Fresh => length h end /\
  (Script.normalizeParams st this (IObj p) h).2 !! p
  = Some (match st with Body.InPlace => o ∪ c | Body.Fresh => o end).
Proof.
  intros Hc Ho. destruct st.
  - rewrite normalizeParams_in_place, (normalizeParams_mapping this p h c Hc).
    simpl. by rewrite list_lookup_alter_eq, Ho.
  - rewrite (normalizeParams_fresh_mapping this p h o c Hc Ho). simpl.
    split; [done |]. by apply lookup_app_l_Some.
Qed.

End Agreement.

(** ** One call, one outcome *)

(** C5. Whatever the operation, the client, the input and the store,
    whatever the transport and the decoder do, and whichever way
    [util.extend] stores its result: the body of the operation runs to its
    end without throwing, and the calls it has made by then give rise to
    exactly one callback, which carries either an error and no result or a
    result and no error. *)
Theorem C5_one_call_one_outcome env st op this param h :
  exists w err result,
    Script.run st op this param h = (Body.Returned tt, w) /\
    List.filter (apirequest.is_callback env) (Script.trace env (Body.calls w))
    = [apirequest.EvCallback err result] /\
    ((is_Some err /\ result = None) \/ (err = None /\ is_Some result)).
Proof.
  destruct (script_total st op this param h) as (h' & call & Hrun).
  rewrite Hrun.
  assert (Hone : exists err result,
             List.filter (apirequest.is_callback env) (Script.trace env [call])
             = [apirequest.EvCallback err result] /\
             ((is_Some err /\ result = None) \/ (err = None /\ is_Some result))).
  { unfold Script.trace. simpl. rewrite !app_nil_r.
    destruct call as [q contents r | e]; simpl.
    - unfold apirequest.dispatch.
      destruct (apirequest.satisfied contents r); simpl.
      + destruct (complete_outcome env
                    (apirequest.network env (apirequest.serialize env contents)))
          as (err & result & -> & Hone).
        by exists err, result.
      + eexists _, _. split; [reflexivity |]. left. by split; [eexists |].
    - eexists _, _. split; [reflexivity |]. left. by split; [eexists |]. }
  destruct Hone as (err & result & Hone).
  by eexists _, err, result.
Qed.

(** ** The caller's mapping *)

(** C10 as stated fails, however [util.extend] stores its result: [extract]
    renames [text] on the object it hands to the dispatcher, which is not the
    caller's mapping; the caller's mapping keeps its [text] and gets no
    [html]. *)
Lemma C10_extract_renames_on_its_own_object :
  (exists h' q contents r,
      Script.run Body.InPlace Extract Sample.client (IObj 1)
        (Sample.store {[ "text" := VStr "x" ]})
      = (Body.Returned tt,
         {| Body.store := h'; Body.calls := [Body.Dispatch q contents r] |}) /\
      q <> 1 /\
      contents !! "html" = Some (VStr "x") /\ contents !! "text" = None /\
      h' !! 1 ≫= (.!! "text") = Some (VStr "x") /\
      h' !! 1 ≫= (.!! "html") = None) /\
  (exists h' q contents r,
      Script.run Body.Fresh Extract Sample.client (IObj 1)
        (Sample.store {[ "text" := VStr "x" ]})
      = (Body.Returned tt,
         {| Body.store := h'; Body.calls := [Body.Dispatch q contents r] |}) /\
      q <> 1 /\
      contents !! "html" = Some (VStr "x") /\ contents !! "text" = None /\
      h' !! 1 ≫= (.!! "text") = Some (VStr "x") /\
      h' !! 1 ≫= (.!! "html") = None).
Proof.
  split; eexists _, _, _, _; (split; [reflexivity |]);
    (split; [discriminate |]); repeat split; reflexivity.
Qed.

(** C10, amended. When the input is a mapping, an operation call does to the
    caller's mapping what [normalizeParams] does to it and nothing else. If
    [util.extend] stores its result in place, [normalizeParams] returns the
    reference it was given and the caller's mapping ends up with the fields
    of the configuration it lacked; if [util.extend] builds a new mapping,
    the caller's mapping is left as it was. In both cases the parameters
    handed to the dispatcher are an object created during the call, holding
    the merged fields, and the renaming of [extract] and [related] is done on
    that object. *)
Theorem C10_caller_mapping_after_a_call st op this p h o c :
  h !! _options this = Some c -> h !! p = Some o ->
  (Script.normalizeParams st this (IObj p) h).1
  = match st with Body.InPlace => p | Body.Fresh => length h end /\
  exists w,
    Script.run st op this (IObj p) h = (Body.Returned tt, w) /\
    Body.store w !! p = (Script.normalizeParams st this (IObj p) h).2 !! p /\
    Body.store w !! p
    = Some (match st with Body.InPlace => o ∪ c | Body.Fresh => o end) /\
    forall q contents r, Body.calls w = [Body.Dispatch q contents r] ->
      h !! q = None /\
      contents = dispatched (Catalog.descriptor op) (o ∪ c) /\
      r = Catalog.rule (Catalog.descriptor op).
Proof.
  intros Hc Ho.
  assert (Hin : input_in h (IObj p)) by by apply lookup_lt_Some with o.
  destruct (normalizeParams_script_mapping st this p h o c Hc Ho) as [Hret Hp].
  split; [done |].
  destruct (script_spec st op this (IObj p) h c Hc Hin) as (q & h' & Hrun & _ & Hle & Hframe).
  eexists. split; [exact Hrun |]. simpl.
  rewrite (Hframe p Hin). split; [done |]. split; [done |].
  intros q' contents r [= Hcall]. revert Hcall.
  unfold call_for, decision, normalized. rewrite Ho. simpl.
  destruct (_ && _); [discriminate |]. intros [= <- <- <-].
  split; [by apply lookup_ge_None_2 | done].
Qed.

Lemma C10_caller_mapping_after_a_call_witness :
  (Script.normalizeParams Body.Fresh Sample.client (IObj 1)
     (Sample.store {[ "text" := VStr "x" ]})).1 = 2 /\
  exists w,
    Script.run Body.Fresh Related Sample.client (IObj 1)
      (Sample.store {[ "text" := VStr "x" ]}) = (Body.Returned tt, w) /\
    Body.store w !! 1
    = (Script.normalizeParams Body.Fresh Sample.client (IObj 1)
         (Sample.store {[ "text" := VStr "x" ]})).2 !! 1 /\
    Body.store w !! 1 = Some {[ "text" := VStr "x" ]} /\
    forall q contents r, Body.calls w = [Body.Dispatch q contents r] ->
      Sample.store {[ "text" := VStr "x" ]} !! q = None /\
      contents = dispatched (Catalog.descriptor Related)
                   ({[ "text" := VStr "x" ]} ∪ Sample.config) /\
      r = Plain "phrase".
Proof.
  apply (C10_caller_mapping_after_a_call Body.Fresh Related Sample.client 1
           (Sample.store {[ "text" := VStr "x" ]}) {[ "text" := VStr "x" ]}
           Sample.config); reflexivity.
Defined.

(** X5. An operation call changes none of the objects that existed before
    the call, except the mapping it was given, and that one only if
    [util.extend] stores its result in place. A call with a bare string
    changes no existing object at all. *)
Theorem X5_call_leaves_other_objects st op this param h c :
  h !! _options this = Some c -> input_in h param ->
  exists w,
    Script.run st op this param h = (Body.Returned tt, w) /\
    forall l, l < length h -> st = Body.Fresh \/ param <> IObj l ->
      Body.store w !! l = h !! l.
Proof.
  intros Hc Hin.
  destruct (script_spec st op this param h c Hc Hin) as (q & h' & Hrun & _ & _ & Hframe).
  eexists. split; [exact Hrun |]. simpl. intros l Hl Hne.
  rewrite (Hframe l Hl). by apply normalizeParams_script_frame with c.
Qed.

Lemma X5_call_leaves_other_objects_witness :
  exists w,
    Script.run Body.InPlace Extract Sample.client (IStr "some text")
      (Sample.store {[ "text" := VStr "kept" ]}) = (Body.Returned tt, w) /\
    forall l, l < 2 -> Body.InPlace = Body.Fresh \/ IStr "some text" <> IObj l ->
      Body.store w !! l = Sample.store {[ "text" := VStr "kept" ]} !! l.
Proof.
  apply (X5_call_leaves_other_objects Body.InPlace Extract Sample.client
           (IStr "some text") (Sample.store {[ "text" := VStr "kept" ]}) Sample.config);
    [reflexivity | exact I].
Defined.

(** X11. A call of an operation with a mapping leaves no trace in what a
    later call with the same mapping hands over: the second operation passes
    the parameters and the rule (or, for [summarize], the error) it would
    have passed had it been called first. What [extract] or [related]
    renamed in the first call does not show in the second. This holds
    whichever way [util.extend] stores its result. *)
Theorem X11_calls_do_not_interfere st op1 op2 this p h o c :
  h !! _options this = Some c -> h !! p = Some o ->
  map Script.payload
    (Body.calls
       (Script.run st op2 this (IObj p)
          (Body.store (Script.run st op1 this (IObj p) h).2)).2)
  = map Script.payload (Body.calls (Script.run st op2 this (IObj p) h).2).
Proof.
  intros Hc Ho.
  assert (Hin : input_in h (IObj p)) by by apply lookup_lt_Some with o.
  destruct (normalizeParams_script_mapping st this p h o c Hc Ho) as [_ Hp].
  destruct (normalizeParams_script_spec st this (IObj p) h c Hc Hin)
    as (n & hn & Hn & _ & Hkeep & _).
  destruct (script_spec st op1 this (IObj p) h c Hc Hin)
    as (q1 & h1 & Hrun1 & _ & _ & Hframe1).
  destruct (script_spec st op2 this (IObj p) h c Hc Hin) as (q & h2 & Hrun & _).
  rewrite Hrun1. simpl.
  assert (Hc1 : h1 !! _options this = Some c).
  { rewrite (Hframe1 _ (lookup_lt_Some _ _ _ Hc)), Hn. exact Hkeep. }
  assert (Hp1 : h1 !! p
                = Some (match st with Body.InPlace => o ∪ c | Body.Fresh => o end))
    by by rewrite (Hframe1 p Hin).
  assert (Hin1 : input_in h1 (IObj p)) by by eapply lookup_lt_Some.
  destruct (script_spec st op2 this (IObj p) h1 c Hc1 Hin1) as (q2 & h3 & Hrun2 & _).
  assert (Hsame : normalized c h1 (IObj p) = normalized c h (IObj p)).
  { unfold normalized. rewrite Hp1, Ho. simpl.
    destruct st; [| done]. by rewrite <- (assoc_L (∪)), (idemp (∪) c). }
  rewrite Hrun, Hrun2, Hsame. simpl. by rewrite !payload_call_for.
Qed.

Lemma X11_calls_do_not_interfere_witness :
  map Script.payload
    (Body.calls
       (Script.run Body.InPlace Sentiment Sample.client (IObj 1)
          (Body.store
             (Script.run Body.InPlace Extract Sample.client (IObj 1)
                (Sample.store {[ "text" := VStr "<p>x</p>" ]})).2)).2)
  = map Script.payload
      (Body.calls
         (Script.run Body.InPlace Sentiment Sample.client (IObj 1)
            (Sample.store {[ "text" := VStr "<p>x</p>" ]})).2).
Proof.
  apply (X11_calls_do_not_interfere Body.InPlace Extract Sentiment Sample.client 1
           (Sample.store {[ "text" := VStr "<p>x</p>" ]})
           {[ "text" := VStr "<p>x</p>" ]} Sample.config); reflexivity.
Defined.
